(** * tony/autopilot.py: the scripted driver of the Neuro control channel

    A shallow embedding of [src/tony/autopilot.py].  The coroutines of the
    script run on one cooperative asyncio task; they are embedded as
    computations in a state-and-exception monad over a [World] that holds
    the external [NeuroAPI] object, the closure cells of the nested
    [trigger] functions and the log of everything that happened on the
    channel.  Every [await asyncio.sleep(d)] is a suspension point at
    which the channel may change its signals and deliver result
    notifications to the handler stored in [api.on_action_result]. *)

From Stdlib Require Import ZArith Ascii String.
From stdpp Require Import base list strings.

#[local] Set Warnings "-register-all".

Local Open Scope string_scope.

(** ** Python values handed to [json.dumps] *)

(** The script only builds dictionaries with [str] keys whose values are
    [str]; a dictionary keeps its insertion order, so it is an association
    list. *)
Inductive py_value : Type :=
| PyStr (s : string)
| PyDict (items : list (string * py_value)).

Definition dquote : ascii := "034"%char.
Definition backslash : ascii := "092"%char.

Definition hex_digit (n : nat) : ascii :=
  match n with
  | 0 => "0" | 1 => "1" | 2 => "2" | 3 => "3" | 4 => "4" | 5 => "5"
  | 6 => "6" | 7 => "7" | 8 => "8" | 9 => "9" | 10 => "a" | 11 => "b"
  | 12 => "c" | 13 => "d" | 14 => "e" | _ => "f"
  end%char.

(** [json.encoder.py_encode_basestring_ascii], one character: the two
    characters with a short escape of their own, the five control
    characters with one, and [\u00xx] for everything else outside the
    printable range [' ' .. '~']. *)
Definition escape_char (c : ascii) : string :=
  let n := nat_of_ascii c in
  if Nat.eqb n 34 then String backslash (String dquote "")
  else if Nat.eqb n 92 then String backslash (String backslash "")
  else if Nat.eqb n 10 then String backslash "n"
  else if Nat.eqb n 13 then String backslash "r"
  else if Nat.eqb n 9 then String backslash "t"
  else if Nat.eqb n 12 then String backslash "f"
  else if Nat.eqb n 8 then String backslash "b"
  else if (Nat.ltb n 32 || Nat.ltb 126 n)%bool then
    String backslash
      (String "u" (String "0" (String "0"
         (String (hex_digit (n / 16)) (String (hex_digit (n mod 16)) "")))))
  else String c "".

Fixpoint escape_chars (s : string) : string :=
  match s with
  | EmptyString => ""
  | String c r => escape_char c ++ escape_chars r
  end.

Definition py_encode_basestring_ascii (s : string) : string :=
  String dquote (escape_chars s ++ String dquote "").

(** The items of a dictionary, each written as [key: value], with
    [", "] between them. *)
Definition dump_items (dump : py_value -> string) :=
  fix go (l : list (string * py_value)) (first : bool) : string :=
    match l with
    | [] => ""
    | (k, x) :: r =>
        (if first then "" else ", ")
          ++ py_encode_basestring_ascii k ++ ": " ++ dump x ++ go r false
    end.

(** [json.dumps] with its default arguments: item separator [", "], key
    separator [": "], [ensure_ascii=True]. *)
Fixpoint json_dumps (v : py_value) : string :=
  match v with
  | PyStr s => py_encode_basestring_ascii s
  | PyDict items => "{" ++ dump_items json_dumps items true ++ "}"
  end.

(** ** Recognising the JSON the script sends *)

(** A recogniser for JSON texts that are one object whose members are
    strings (RFC 8259: insignificant white space, the two-character
    escapes and [\uXXXX]). *)
Inductive smode : Type :=
| SPlain
| SEsc
| SHex (more : nat).

Inductive jstate : Type :=
| JStart
| JOpen
| JKey (m : smode)
| JColon
| JValue
| JVal (m : smode)
| JNext
| JComma
| JEnd
| JFail.

Definition is_ws (c : ascii) : bool :=
  let n := nat_of_ascii c in
  (Nat.eqb n 32 || Nat.eqb n 9 || Nat.eqb n 10 || Nat.eqb n 13)%bool.

Definition is_hex (c : ascii) : bool :=
  let n := nat_of_ascii c in
  ((Nat.leb 48 n && Nat.leb n 57) || (Nat.leb 97 n && Nat.leb n 102)
   || (Nat.leb 65 n && Nat.leb n 70))%bool.

Definition is_escape (c : ascii) : bool :=
  let n := nat_of_ascii c in
  (Nat.eqb n 34 || Nat.eqb n 92 || Nat.eqb n 47 || Nat.eqb n 98
   || Nat.eqb n 102 || Nat.eqb n 110 || Nat.eqb n 114 || Nat.eqb n 116)%bool.

(** One character inside a string: [None] is a malformed string,
    [Some None] the closing quote. *)
Definition string_step (m : smode) (c : ascii) : option (option smode) :=
  let n := nat_of_ascii c in
  match m with
  | SPlain =>
      if Nat.eqb n 34 then Some None
      else if Nat.eqb n 92 then Some (Some SEsc)
      else if Nat.ltb n 32 then None
      else Some (Some SPlain)
  | SEsc =>
      if Nat.eqb n 117 then Some (Some (SHex 3))
      else if is_escape c then Some (Some SPlain)
      else None
  | SHex more =>
      if is_hex c then
        Some (Some match more with 0 => SPlain | S k => SHex k end)
      else None
  end.

Definition punct (c : ascii) (expected : nat) (next stay : jstate) : jstate :=
  if Nat.eqb (nat_of_ascii c) expected then next
  else if is_ws c then stay else JFail.

Definition json_step (st : jstate) (c : ascii) : jstate :=
  match st with
  | JStart => punct c 123 JOpen JStart
  | JOpen =>
      if Nat.eqb (nat_of_ascii c) 125 then JEnd
      else punct c 34 (JKey SPlain) JOpen
  | JKey m =>
      match string_step m c with
      | None => JFail
      | Some None => JColon
      | Some (Some m') => JKey m'
      end
  | JColon => punct c 58 JValue JColon
  | JValue => punct c 34 (JVal SPlain) JValue
  | JVal m =>
      match string_step m c with
      | None => JFail
      | Some None => JNext
      | Some (Some m') => JVal m'
      end
  | JNext =>
      if Nat.eqb (nat_of_ascii c) 125 then JEnd
      else punct c 44 JComma JNext
  | JComma => punct c 34 (JKey SPlain) JComma
  | JEnd => if is_ws c then JEnd else JFail
  | JFail => JFail
  end.

Fixpoint json_run (st : jstate) (s : string) : jstate :=
  match s with
  | EmptyString => st
  | String c r => json_run (json_step st c) r
  end.

Definition is_json_object (s : string) : bool :=
  match json_run JStart s with JEnd => true | _ => false end.

Local Open Scope list_scope.

(** ** The channel *)

(** Modelled from the spec: [ActionResultCommand] of [neuro_api_tony.api]
    is not part of this repository; it is the result payload the channel
    passes to the handler, which the script never inspects. *)
Record ActionResultCommand : Type := mkResult {
  result_success : bool;
  result_message : option string
}.

(** What can sit in [api.on_action_result]: the closure [trigger] of one
    call of [wait_for_action_result], identified by the cell that holds
    its [triggered] variable, or a handler the script did not make. *)
Inductive handler : Type :=
| Trigger (cell : nat)
| Foreign (tag : nat).

Inductive exn : Type := Exn (msg : string).

(** Durations are counted in polling intervals of 0.1 s, so
    [asyncio.sleep(0.1)] is [sleep 1] and [asyncio.sleep(3)] is
    [sleep 30]. *)
Definition duration := nat.

(** Modelled from the spec: the class [NeuroAPI] of [neuro_api_tony.api]
    is an external collaborator.  Its behaviour is a parameter: a state
    [E], the truth values of its two signals, its three calls (each of
    which may raise) and what it does while the script is suspended.  A
    call of [send_action] and a suspension return the result
    notifications the channel delivers meanwhile; each is passed to
    whatever handler [api.on_action_result] holds at that moment. *)
Class NeuroAPI (E : Type) : Type := {
  api_start : string -> Z -> E -> exn + E;
  api_current_game : E -> bool;
  api_action_forced : E -> bool;
  api_send_action :
    string -> string -> option string -> E ->
    exn + (E * list ActionResultCommand);
  api_stop : E -> exn + E;
  api_elapse : duration -> E -> E * list ActionResultCommand
}.

(** Everything observable on the channel, oldest first. *)
Inductive event : Type :=
| EStart (address : string) (port : Z)
| ECurrentGame (b : bool)
| EActionForced (b : bool)
| EGetHandler (h : option handler)
| ESetHandler (h : option handler)
| ESendAction (id name : string) (payload : option string)
| EStop
| ESleep (d : duration)
| EResult (h : option handler) (r : ActionResultCommand)
| ERaise (e : exn).

Section Coroutines.

Context {E : Type} `{NeuroAPI E}.

(** The state a coroutine runs in: the channel object, with its slot
    [on_action_result] kept apart because the script writes it; the
    cells of the [triggered] variables, one for each call of
    [wait_for_action_result] so far; and the trace. *)
Record World : Type := mkWorld {
  api : E;
  on_action_result : option handler;
  cells : list bool;
  trace : list event
}.

Definition log (ev : event) (w : World) : World :=
  mkWorld (api w) (on_action_result w) (cells w) (trace w ++ [ev]).

Definition with_api (e : E) (w : World) : World :=
  mkWorld e (on_action_result w) (cells w) (trace w).

(** The channel calls [api.on_action_result(r)].  [trigger] ignores its
    argument and sets [triggered]; a foreign handler, or an empty slot,
    leaves the script's variables alone. *)
Definition invoke (r : ActionResultCommand) (w : World) : World :=
  let h := on_action_result w in
  let w' := log (EResult h r) w in
  match h with
  | Some (Trigger c) =>
      mkWorld (api w') (on_action_result w') (<[c:=true]> (cells w')) (trace w')
  | _ => w'
  end.

Definition deliver (rs : list ActionResultCommand) (w : World) : World :=
  foldl (fun acc r => invoke r acc) w rs.

(** ** The monad of coroutines *)

Inductive outcome (A : Type) : Type :=
| Done (a : A) (w : World)
| Raised (e : exn) (w : World)
| Pending (w : World).

(** A coroutine takes the number of polls each of its loops is observed
    for, and the world; it returns, raises, or is still suspended. *)
Definition M (A : Type) : Type := nat -> World -> outcome A.

Definition ret {A} (a : A) : M A := fun _ w => Done A a w.

Definition bind {A B} (m : M A) (k : A -> M B) : M B :=
  fun fuel w =>
    match m fuel w with
    | Done _ a w' => k a fuel w'
    | Raised _ e w' => Raised B e w'
    | Pending _ w' => Pending B w'
    end.

(** [while cond: body], observed for at most [fuel] evaluations of the
    condition; [Pending] is a coroutine that is still suspended then. *)
Fixpoint while_ (cond : M bool) (body : M unit) (fuel : nat) (w : World)
  : outcome unit :=
  match fuel with
  | 0 => Pending unit w
  | S fuel' =>
      match cond fuel' w with
      | Done _ true w1 =>
          match body fuel' w1 with
          | Done _ _ w2 => while_ cond body fuel' w2
          | Raised _ e w2 => Raised unit e w2
          | Pending _ w2 => Pending unit w2
          end
      | Done _ false w1 => Done unit tt w1
      | Raised _ e w1 => Raised unit e w1
      | Pending _ w1 => Pending unit w1
      end
  end.

Definition final {A} (o : outcome A) : World :=
  match o with
  | Done _ _ w => w
  | Raised _ _ w => w
  | Pending _ w => w
  end.

End Coroutines.

Arguments World E : clear implicits.
Arguments mkWorld {E} api on_action_result cells trace.
Arguments outcome E A : clear implicits.
Arguments M E A : clear implicits.
Arguments Done {E A} a w.
Arguments Raised {E A} e w.
Arguments Pending {E A} w.

Declare Scope coroutine_scope.
Delimit Scope coroutine_scope with co.
Notation "x <- m ;; k" := (bind m (fun x => k))
  (at level 100, m at next level, right associativity) : coroutine_scope.
Notation "m ;; k" := (bind m (fun _ => k))
  (at level 100, right associativity) : coroutine_scope.

(** ** Commands *)

Record Command : Type := mkCommand {
  cmd_id : string;
  cmd_name : string;
  cmd_payload : option string
}.

Definition ESend (c : Command) : event :=
  ESendAction (cmd_id c) (cmd_name c) (cmd_payload c).

(** A dictionary literal of strings, and [json.dumps] of one. *)
Definition str_items (items : list (string * string))
  : list (string * py_value) :=
  map (fun kv => (kv.1, PyStr kv.2)) items.

Definition dumps (items : list (string * string)) : option string :=
  Some (json_dumps (PyDict (str_items items))).

(** The nine steps of [main], each with the pause that follows its
    result. *)
Definition script : list (Command * duration) :=
  [ (mkCommand "id_1" "chat"
       (dumps [("answer", "Sure, I'll see what I can do.")]), 30);
    (mkCommand "id_2" "get_files" None, 20);
    (mkCommand "id_3" "open_file" (dumps [("filePath", "fixme.js")]), 20);
    (mkCommand "id_4" "run_current_file" None, 50);
    (mkCommand "id_5" "replace_text"
       (dumps [("find", "greetign");
               ("replaceWith", "greeting");
               ("match", "firstInFile")]), 20);
    (mkCommand "id_6" "run_current_file" None, 50);
    (mkCommand "id_7" "replace_text"
       (dumps [("find", ".replace('%s', greetingFormat)");
               ("replaceWith", ".replace('%s', greetingTarget)");
               ("match", "firstAfterCursor")]), 20);
    (mkCommand "id_8" "run_current_file" None, 50);
    (mkCommand "id_9" "request_cookie"
       (dumps [("flavor", "Chocolate Chip")]), 20) ].

Local Open Scope coroutine_scope.

Section Autopilot.

Context {E : Type} `{NeuroAPI E}.

(** ** Calls on the channel *)

Definition raise {A} (e : exn) : M E A :=
  fun _ w => Raised e (log (ERaise e) w).

(** [api.start(address=..., port=...)] *)
Definition start (address : string) (port : Z) : M E unit :=
  fun fuel w =>
    let w1 := log (EStart address port) w in
    match api_start address port (api w1) with
    | inl e => raise e fuel w1
    | inr e' => Done tt (with_api e' w1)
    end.

(** Reading a boolean-like attribute of the channel and taking its truth
    value. *)
Definition read_signal (sig : E -> bool) (ev : bool -> event) : M E bool :=
  fun _ w => let b := sig (api w) in Done b (log (ev b) w).

(** [api.current_game] *)
Definition current_game : M E bool :=
  read_signal api_current_game ECurrentGame.

(** [api.action_forced] *)
Definition action_forced : M E bool :=
  read_signal api_action_forced EActionForced.

(** reading [api.on_action_result] *)
Definition get_on_action_result : M E (option handler) :=
  fun _ w =>
    let h := on_action_result w in Done h (log (EGetHandler h) w).

(** [api.on_action_result = h] *)
Definition set_on_action_result (h : option handler) : M E unit :=
  fun _ w =>
    let w1 := log (ESetHandler h) w in
    Done tt (mkWorld (api w1) h (cells w1) (trace w1)).

(** [api.send_action(id, name, payload)]: the notifications the channel
    delivers before the call returns go to the handler installed at the
    time of the call. *)
Definition send_action (id name : string) (payload : option string)
  : M E unit :=
  fun fuel w =>
    let w1 := log (ESendAction id name payload) w in
    match api_send_action id name payload (api w1) with
    | inl e => raise e fuel w1
    | inr (e', rs) => Done tt (deliver rs (with_api e' w1))
    end.

(** [api.stop()] *)
Definition stop : M E unit :=
  fun fuel w =>
    let w1 := log EStop w in
    match api_stop (api w1) with
    | inl e => raise e fuel w1
    | inr e' => Done tt (with_api e' w1)
    end.

(** [await asyncio.sleep(d)]: the task is suspended, the event loop runs
    the channel, and the task resumes. *)
Definition sleep (d : duration) : M E unit :=
  fun _ w =>
    let w1 := log (ESleep d) w in
    let '(e', rs) := api_elapse d (api w1) in
    Done tt (deliver rs (with_api e' w1)).

(** ** Closure cells *)

(** [triggered = False] in a fresh frame: the variable lives in a cell
    of its own, shared with the nested [trigger]. *)
Definition new_cell (b : bool) : M E nat :=
  fun _ w =>
    Done (length (cells w))
      (mkWorld (api w) (on_action_result w) (cells w ++ [b]) (trace w)).

Definition read_cell (c : nat) : M E bool :=
  fun _ w => Done (default false (cells w !! c)) w.

(** ** The coroutines of autopilot.py *)

Definition wait_for_startup : M E unit :=
  while_ (b <- current_game ;; ret (negb b))
    (sleep 1).

Definition wait_for_action_result : M E unit :=
  prev <- get_on_action_result ;;
  triggered <- new_cell false ;;
  set_on_action_result (Some (Trigger triggered)) ;;
  while_ (b <- read_cell triggered ;; ret (negb b))
    (sleep 1) ;;
  set_on_action_result prev.

Definition wait_for_actions_force : M E unit :=
  while_ (b <- action_forced ;; ret (negb b))
    (sleep 1).

(** ** The script as data *)

(** The sequencer of the design: the same coroutine as [main] below, with
    the nine literal steps read from a list.  [play l rest] runs the
    steps of [l] and then [rest]. *)
Fixpoint play (l : list (Command * duration)) (rest : M E unit) : M E unit :=
  match l with
  | [] => rest
  | (c, d) :: r =>
      send_action (cmd_id c) (cmd_name c) (cmd_payload c) ;;
      wait_for_action_result ;;
      sleep d ;;
      play r rest
  end.

Definition sequencer (l : list (Command * duration)) : M E unit :=
  start "localhost" 8000 ;;
  wait_for_startup ;;
  wait_for_actions_force ;;
  sleep 10 ;;
  play l stop.

(** The channel state after [n] polling intervals. *)
Definition ticks (n : nat) (e : E) : E :=
  Nat.iter n (fun x => (api_elapse 1 x).1) e.

(** [main].  The [NeuroAPI] object it makes first is the [api] of the
    world it is run in. *)
Definition main : M E unit :=
  start "localhost" 8000 ;;

  wait_for_startup ;;

  wait_for_actions_force ;;
  sleep 10 ;;
  send_action "id_1" "chat"
    (dumps [("answer", "Sure, I'll see what I can do.")]) ;;
  wait_for_action_result ;;
  sleep 30 ;;

  send_action "id_2" "get_files" None ;;
  wait_for_action_result ;;
  sleep 20 ;;

  send_action "id_3" "open_file" (dumps [("filePath", "fixme.js")]) ;;
  wait_for_action_result ;;
  sleep 20 ;;

  send_action "id_4" "run_current_file" None ;;
  wait_for_action_result ;;
  sleep 50 ;;

  send_action "id_5" "replace_text"
    (dumps [("find", "greetign");
            ("replaceWith", "greeting");
            ("match", "firstInFile")]) ;;
  wait_for_action_result ;;
  sleep 20 ;;

  send_action "id_6" "run_current_file" None ;;
  wait_for_action_result ;;
  sleep 50 ;;

  send_action "id_7" "replace_text"
    (dumps [("find", ".replace('%s', greetingFormat)");
            ("replaceWith", ".replace('%s', greetingTarget)");
            ("match", "firstAfterCursor")]) ;;
  wait_for_action_result ;;
  sleep 20 ;;

  send_action "id_8" "run_current_file" None ;;
  wait_for_action_result ;;
  sleep 50 ;;

  send_action "id_9" "request_cookie"
    (dumps [("flavor", "Chocolate Chip")]) ;;
  wait_for_action_result ;;
  sleep 20 ;;

  stop.

(** ** Worlds along a wait *)

(** The world after [await asyncio.sleep(d)]. *)
Definition slept (d : duration) (w : World E) : World E :=
  let r := api_elapse d (api w) in
  deliver r.2 (with_api r.1 (log (ESleep d) w)).

(** The world after [n] polling sleeps in a row. *)
Fixpoint napped (n : nat) (w : World E) : World E :=
  match n with
  | 0 => w
  | S n' => napped n' (slept 1 w)
  end.

(** The world after [n] rounds of a polling loop that read [false]. *)
Fixpoint polled (sig : E -> bool) (ev : bool -> event) (n : nat) (w : World E)
  : World E :=
  match n with
  | 0 => w
  | S n' => polled sig ev n' (slept 1 (log (ev (sig (api w))) w))
  end.

(** What the channel delivers in the polling interval that starts after
    [i] of them. *)
Definition delivered_at (i : nat) (e : E) : list ActionResultCommand :=
  (api_elapse 1 (ticks i e)).2.

(** The world in which [wait_for_action_result] starts to poll: [prev]
    read, the cell of [triggered] allocated, [trigger] installed. *)
Definition armed (w : World E) : World E :=
  let c := length (cells w) in
  mkWorld (api w) (Some (Trigger c)) (cells w ++ [false])
    (trace w ++ [EGetHandler (on_action_result w);
                 ESetHandler (Some (Trigger c))]).

(** The world after [api.on_action_result = prev]. *)
Definition restored (prev : option handler) (w : World E) : World E :=
  mkWorld (api w) prev (cells w) (trace w ++ [ESetHandler prev]).

(** The two loops over a signal, and the loop over [triggered]. *)
Definition poll_loop (sig : E -> bool) (ev : bool -> event) : M E unit :=
  while_ (b <- read_signal sig ev ;; ret (negb b)) (sleep 1).

Definition result_loop (triggered : nat) : M E unit :=
  while_ (b <- read_cell triggered ;; ret (negb b)) (sleep 1).

End Autopilot.

(** ** Two channels for the end-to-end scenario *)

(** Both become ready once 2 polling intervals have passed and report a
    forced action once 3 more have.  They differ in when the result of a
    command reaches the handler. *)
Record scenario : Type := mkScenario {
  clock : nat;
  outstanding : bool
}.

Definition ok_result : ActionResultCommand := mkResult true None.

(** The result handler is invoked inside every [send_action] call, before
    the call returns. *)
Definition sync_channel : NeuroAPI scenario := {|
  api_start := fun _ _ s => inr s;
  api_current_game := fun s => Nat.leb 2 (clock s);
  api_action_forced := fun s => Nat.leb 5 (clock s);
  api_send_action := fun _ _ _ s => inr (s, [ok_result]);
  api_stop := fun s => inr s;
  api_elapse := fun d s => (mkScenario (clock s + d) (outstanding s), [])
|}.

(** The result of a command is delivered by the event loop, at the first
    suspension of the script after the command was sent. *)
Definition queued_channel : NeuroAPI scenario := {|
  api_start := fun _ _ s => inr s;
  api_current_game := fun s => Nat.leb 2 (clock s);
  api_action_forced := fun s => Nat.leb 5 (clock s);
  api_send_action := fun _ _ _ s => inr (mkScenario (clock s) true, []);
  api_stop := fun s => inr s;
  api_elapse := fun d s =>
    (mkScenario (clock s + d) false,
     if outstanding s then [ok_result] else [])
|}.

(** A channel on which nothing ever happens: no session attaches, no
    action is forced, no result arrives. *)
Definition dead_channel : NeuroAPI unit := {|
  api_start := fun _ _ s => inr s;
  api_current_game := fun _ => false;
  api_action_forced := fun _ => false;
  api_send_action := fun _ _ _ s => inr (s, []);
  api_stop := fun s => inr s;
  api_elapse := fun _ s => (s, [])
|}.

(** A channel that delivers two result notifications in every polling
    interval. *)
Definition burst_channel : NeuroAPI unit := {|
  api_start := fun _ _ s => inr s;
  api_current_game := fun _ => true;
  api_action_forced := fun _ => true;
  api_send_action := fun _ _ _ s => inr (s, []);
  api_stop := fun s => inr s;
  api_elapse := fun _ s => (s, [ok_result; ok_result])
|}.

(** A channel that delivers one result notification in every polling
    interval. *)
Definition chatty_channel : NeuroAPI unit := {|
  api_start := fun _ _ s => inr s;
  api_current_game := fun _ => true;
  api_action_forced := fun _ => true;
  api_send_action := fun _ _ _ s => inr (s, []);
  api_stop := fun s => inr s;
  api_elapse := fun _ s => (s, [ok_result])
|}.

(** A channel like [queued_channel] whose transport breaks at the third
    command. *)
Definition broken_pipe : exn := Exn "BrokenPipeError".

Definition failing_channel : NeuroAPI scenario := {|
  api_start := fun _ _ s => inr s;
  api_current_game := fun s => Nat.leb 2 (clock s);
  api_action_forced := fun s => Nat.leb 5 (clock s);
  api_send_action := fun id _ _ s =>
    if String.eqb id "id_3" then inl broken_pipe
    else inr (mkScenario (clock s) true, []);
  api_stop := fun s => inr s;
  api_elapse := fun d s =>
    (mkScenario (clock s + d) false,
     if outstanding s then [ok_result] else [])
|}.

Definition boot {E} (e : E) (h : option handler) : World E :=
  mkWorld e h [] [].

(** The freshly made channel of the scenario: nothing attached, nothing
    forced, nothing outstanding, no handler installed. *)
Definition scenario_start : World scenario := boot (mkScenario 0 false) None.

(** Where the scenario ends on [queued_channel]. *)
Definition scenario_end : World scenario :=
  Eval vm_compute in final (@main scenario queued_channel 4 scenario_start).

(** The world of the scenario on [sync_channel] when the first
    [send_action] has returned. *)
Section SyncScenario.

#[local] Existing Instance sync_channel.

Definition sync_first_sent : World scenario :=
  Eval vm_compute in
    final ((start "localhost" 8000 ;; wait_for_startup ;;
            wait_for_actions_force ;; sleep 10 ;;
            send_action "id_1" "chat"
              (dumps [("answer", "Sure, I'll see what I can do.")]))%co
             4 scenario_start).

End SyncScenario.

(** The same channel with the result of a command on its way. *)
Definition scenario_outstanding : World scenario :=
  boot (mkScenario 0 true) None.

(** ** Reading traces *)

Definition is_delivery (ev : event) : bool :=
  match ev with EResult _ _ => true | _ => false end.

(** What the script itself did: the trace without the notifications the
    channel delivered. *)
Definition calls (t : list event) : list event :=
  List.filter (fun ev => negb (is_delivery ev)) t.

(** The commands sent, in order. *)
Fixpoint sent (t : list event) : list Command :=
  match t with
  | [] => []
  | ESendAction i n p :: r => mkCommand i n p :: sent r
  | _ :: r => sent r
  end.

(** Events that leave the channel as it is: reading a signal, sleeping,
    and what the channel itself delivers meanwhile. *)
Definition passive (ev : event) : Prop :=
  match ev with
  | ECurrentGame _ | EActionForced _ | ESleep _ | EResult _ _ => True
  | _ => False
  end.

Definition is_set_handler (ev : event) : bool :=
  match ev with ESetHandler _ => true | _ => false end.

Definition is_stop (ev : event) : bool :=
  match ev with EStop => true | _ => false end.

(** The time the script spent asleep, in polling intervals. *)
Fixpoint slept_total (t : list event) : nat :=
  match t with
  | [] => 0
  | ESleep d :: r => d + slept_total r
  | _ :: r => slept_total r
  end.

(** What happens on the channel before the first command: the call of
    [start], the reads of the two signals, sleeps and deliveries. *)
Definition opening_event (ev : event) : Prop :=
  match ev with
  | EStart _ _ | ECurrentGame _ | EActionForced _ | ESleep _ | EResult _ _ =>
      True
  | _ => False
  end.

(** What happens on the channel during a step after its command was
    sent: the handler is read and written, the script sleeps, the channel
    delivers. *)
Definition waiting_event (ev : event) : Prop :=
  match ev with
  | EGetHandler _ | ESetHandler _ | ESleep _ | EResult _ _ => True
  | _ => False
  end.

(** [stop] was called once, and nothing was called after it: the trace
    ends with the call, or with the exception that came out of it. *)
Definition stop_is_last (t : list event) : Prop :=
  exists pre,
    (EStop ∉ pre) /\
    (t = pre ++ [EStop] \/ exists e, t = pre ++ [EStop; ERaise e]).

(** Strings of printable ASCII characters, [' '] to ['~']. *)
Fixpoint printable (s : string) : bool :=
  match s with
  | EmptyString => true
  | String c r =>
      (Nat.leb 32 (nat_of_ascii c) && Nat.leb (nat_of_ascii c) 126
       && printable r)%bool
  end.

(** What the script may pass as the payload of a command: nothing, or
    the [json.dumps] of a dictionary of strings, which is a JSON
    object. *)
Definition json_or_none (p : option string) : Prop :=
  p = None \/
  exists items,
    p = Some (json_dumps (PyDict (str_items items))) /\
    is_json_object (json_dumps (PyDict (str_items items))) = true.

(** One polling loop that needed [n] sleeps. *)
Definition poll (ev : bool -> event) (n : nat) : list event :=
  concat (replicate n [ev false; ESleep 1]) ++ [ev true].

(** One [wait_for_action_result] that needed [S k] sleeps. *)
Definition result_wait (prev : option handler) (c k : nat) : list event :=
  [EGetHandler prev; ESetHandler (Some (Trigger c))]
    ++ replicate (S k) (ESleep 1) ++ [ESetHandler prev].

(** The calls of the steps [l], the [i]-th of them waiting with the cell
    [c + i] for [S k_i] sleeps. *)
Fixpoint steps_calls (prev : option handler) (c : nat)
  (l : list (Command * duration)) (ks : list nat) : list event :=
  match l, ks with
  | (cmd, d) :: r, k :: ks' =>
      ESend cmd :: result_wait prev c k ++ ESleep d :: steps_calls prev (S c) r ks'
  | _, _ => []
  end.

(** In [t] the command [c] was sent, then a [trigger] was installed, then
    the channel called that [trigger]. *)
Definition observed (c : Command) (t : list event) : Prop :=
  exists a b cell m r z,
    t = a ++ ESend c :: b ++ ESetHandler (Some (Trigger cell)) :: m
          ++ EResult (Some (Trigger cell)) r :: z.

(** ... and after that the script slept for [d], which is the last thing
    it did in [t]. *)
Definition rested (c : Command) (d : duration) (t : list event) : Prop :=
  exists pre h rs,
    t = pre ++ ESleep d :: map (EResult h) rs /\ observed c pre.

(** Every send of step [N + 1] comes after the result of step [N] was
    observed and the pause of step [N] was slept. *)
Definition ordered (t : list event) : Prop :=
  forall N cN dN cM dM pre post,
    script !! N = Some (cN, dN) ->
    script !! S N = Some (cM, dM) ->
    t = pre ++ ESend cM :: post ->
    rested cN dN pre.

(** What [ordered] asks of [t] before [c] may be sent next. *)
Definition follows (c : Command) (t : list event) : Prop :=
  forall N cN dN dM,
    script !! N = Some (cN, dN) ->
    script !! S N = Some (c, dM) ->
    rested cN dN t.

Definition noraise (ev : event) : Prop :=
  match ev with ERaise _ => False | _ => True end.

(** Events that are neither a command nor an exception. *)
Definition harmless (ev : event) : Prop :=
  match ev with ESendAction _ _ _ | ERaise _ => False | _ => True end.

(** Which call an exception came out of. *)
Definition raised_by {E} `{NeuroAPI E} (ev : event) (s : E) (e : exn) : Prop :=
  match ev with
  | EStart a p => api_start a p s = inl e
  | ESendAction i n p => api_send_action i n p s = inl e
  | EStop => api_stop s = inl e
  | _ => False
  end.

(** How an exception shows in a run that added [ext] to the trace: it
    ends the run, as the outcome, right after the call it came out of. *)
Definition propagated {E} `{NeuroAPI E} (o : outcome E unit) (ext : list event)
  : Prop :=
  match o with
  | Raised e w' =>
      exists pre c, ext = pre ++ [c; ERaise e] /\
        raised_by c (api w') e /\ Forall noraise pre
  | _ => Forall noraise ext
  end.

(** What holds of every run, finished or not, that started with the
    trace [t0]. *)
Definition safe_outcome {E} `{NeuroAPI E} (t0 : list event) (o : outcome E unit)
  : Prop :=
  exists ext,
    trace (final o) = t0 ++ ext /\
    ordered ext /\
    (exists j, sent ext = (take j script).*1) /\
    propagated o ext.

(** * Facts *)

(** Right-nest the appends of a trace. *)
Ltac flatten_trace :=
  repeat (progress (rewrite <- ?app_assoc; cbn [app]));
  rewrite ?app_nil_r.

Section Facts.

Context {E : Type} `{NeuroAPI E}.

Implicit Types (w : World E) (t : list event) (fuel : nat).

(** ** The monad *)

Lemma bind_done {A B} (m : M E A) (k : A -> M E B) fuel w a w' :
  m fuel w = Done a w' -> bind m k fuel w = k a fuel w'.
Proof. unfold bind. by intros ->. Qed.

Lemma bind_raised {A B} (m : M E A) (k : A -> M E B) fuel w e w' :
  m fuel w = Raised e w' -> bind m k fuel w = Raised e w'.
Proof. unfold bind. by intros ->. Qed.

Lemma bind_pending {A B} (m : M E A) (k : A -> M E B) fuel w w' :
  m fuel w = Pending w' -> bind m k fuel w = Pending w'.
Proof. unfold bind. by intros ->. Qed.

(** [main] is the sequencer run on the literal script. *)
Lemma main_sequencer : main = sequencer script.
Proof. reflexivity. Qed.

(** ** Deliveries *)

Lemma invoke_api r w : api (invoke r w) = api w.
Proof. unfold invoke. by destruct (on_action_result w) as [[]|]. Qed.

Lemma invoke_handler r w : on_action_result (invoke r w) = on_action_result w.
Proof. unfold invoke. by destruct (on_action_result w) as [[]|] eqn:Hh. Qed.

Lemma invoke_trace r w :
  trace (invoke r w) = trace w ++ [EResult (on_action_result w) r].
Proof. unfold invoke. by destruct (on_action_result w) as [[]|] eqn:Hh. Qed.

Lemma invoke_cells r w :
  cells (invoke r w) =
  match on_action_result w with
  | Some (Trigger c) => <[c:=true]> (cells w)
  | _ => cells w
  end.
Proof. unfold invoke. by destruct (on_action_result w) as [[]|] eqn:Hh. Qed.

Lemma deliver_cons r rs w : deliver (r :: rs) w = deliver rs (invoke r w).
Proof. reflexivity. Qed.

Lemma deliver_api rs w : api (deliver rs w) = api w.
Proof.
  revert w. induction rs as [|r rs IH]; intros w; [done|].
  by rewrite deliver_cons, IH, invoke_api.
Qed.

Lemma deliver_handler rs w :
  on_action_result (deliver rs w) = on_action_result w.
Proof.
  revert w. induction rs as [|r rs IH]; intros w; [done|].
  by rewrite deliver_cons, IH, invoke_handler.
Qed.

Lemma deliver_trace rs w :
  trace (deliver rs w) = trace w ++ map (EResult (on_action_result w)) rs.
Proof.
  revert w. induction rs as [|r rs IH]; intros w.
  - cbn. by rewrite app_nil_r.
  - rewrite deliver_cons, IH, invoke_handler, invoke_trace.
    cbn. by rewrite <- app_assoc.
Qed.

Lemma deliver_cells rs w :
  cells (deliver rs w) =
  match on_action_result w, rs with
  | Some (Trigger c), _ :: _ => <[c:=true]> (cells w)
  | _, _ => cells w
  end.
Proof.
  revert w. induction rs as [|r rs IH]; intros w.
  - cbn. by destruct (on_action_result w) as [[]|].
  - rewrite deliver_cons, IH, invoke_handler, invoke_cells.
    destruct (on_action_result w) as [[c|]|]; try by destruct rs.
    destruct rs; [done|]. by rewrite list_insert_insert_eq.
Qed.

(** ** Calls and sleeps *)

Lemma sleep_eq d fuel w : sleep d fuel w = Done tt (slept d w).
Proof. unfold sleep, slept. cbn. by destruct (api_elapse d (api w)). Qed.

Lemma slept_api d w : api (slept d w) = (api_elapse d (api w)).1.
Proof. unfold slept. by rewrite deliver_api. Qed.

Lemma slept_handler d w : on_action_result (slept d w) = on_action_result w.
Proof. unfold slept. by rewrite deliver_handler. Qed.

Lemma slept_trace d w :
  trace (slept d w) =
  trace w ++ ESleep d :: map (EResult (on_action_result w)) (api_elapse d (api w)).2.
Proof. unfold slept. rewrite deliver_trace. cbn. by rewrite <- app_assoc. Qed.

Lemma slept_cells d w :
  cells (slept d w) =
  match on_action_result w, (api_elapse d (api w)).2 with
  | Some (Trigger c), _ :: _ => <[c:=true]> (cells w)
  | _, _ => cells w
  end.
Proof. unfold slept. by rewrite deliver_cells. Qed.

Lemma slept_cells_length d w : length (cells (slept d w)) = length (cells w).
Proof.
  rewrite slept_cells.
  destruct (on_action_result w) as [[]|], (api_elapse d (api w)).2;
    by rewrite ?length_insert.
Qed.

Lemma ticks_S n e : ticks (S n) e = ticks n (api_elapse 1 e).1.
Proof. unfold ticks. by rewrite Nat.iter_succ_r. Qed.

Lemma start_cases a p fuel w :
  let w1 := log (EStart a p) w in
  (exists e, api_start a p (api w) = inl e /\
     start a p fuel w = Raised e (log (ERaise e) w1)) \/
  (exists e', api_start a p (api w) = inr e' /\
     start a p fuel w = Done tt (with_api e' w1)).
Proof.
  unfold start, raise. cbn.
  destruct (api_start a p (api w)) as [e|e']; [left|right]; eauto.
Qed.

Lemma stop_cases fuel w :
  let w1 := log EStop w in
  (exists e, api_stop (api w) = inl e /\
     stop fuel w = Raised e (log (ERaise e) w1)) \/
  (exists e', api_stop (api w) = inr e' /\
     stop fuel w = Done tt (with_api e' w1)).
Proof.
  unfold stop, raise. cbn.
  destruct (api_stop (api w)) as [e|e']; [left|right]; eauto.
Qed.

Lemma send_action_cases i n p fuel w :
  let w1 := log (ESendAction i n p) w in
  (exists e, api_send_action i n p (api w) = inl e /\
     send_action i n p fuel w = Raised e (log (ERaise e) w1)) \/
  (exists e' rs, api_send_action i n p (api w) = inr (e', rs) /\
     send_action i n p fuel w = Done tt (deliver rs (with_api e' w1))).
Proof.
  unfold send_action, raise. cbn.
  destruct (api_send_action i n p (api w)) as [e|[e' rs]]; [left|right]; eauto.
Qed.

(** ** Reading traces *)

Lemma calls_app t1 t2 : calls (t1 ++ t2) = calls t1 ++ calls t2.
Proof. apply List.filter_app. Qed.

Lemma calls_deliveries h rs : calls (map (EResult h) rs) = [].
Proof. induction rs; [done|]. by cbn. Qed.

Lemma sent_app t1 t2 : sent (t1 ++ t2) = sent t1 ++ sent t2.
Proof.
  induction t1 as [|ev t1 IH]; [done|].
  destruct ev; cbn; by rewrite ?IH.
Qed.

Lemma sent_calls t : sent (calls t) = sent t.
Proof.
  unfold calls. induction t as [|ev t IH]; [done|].
  destruct ev; cbn; by rewrite ?IH.
Qed.

Lemma Forall_deliveries (P : event -> Prop) h rs :
  (forall r, P (EResult h r)) -> Forall P (map (EResult h) rs).
Proof. intros HP. apply Forall_fmap, Forall_forall. intros r _. apply HP. Qed.

(** ** The polling loops *)

Section Polling.

Variables (sig : E -> bool) (ev : bool -> event).

Lemma poll_loop_true fuel w :
  sig (api w) = true ->
  poll_loop sig ev (S fuel) w = Done tt (log (ev true) w).
Proof. intros Hs. unfold poll_loop. cbn. unfold bind, read_signal, ret. by rewrite Hs. Qed.

Lemma poll_loop_false fuel w :
  sig (api w) = false ->
  poll_loop sig ev (S fuel) w =
  poll_loop sig ev fuel (slept 1 (log (ev false) w)).
Proof.
  intros Hs. unfold poll_loop. cbn. unfold bind, read_signal, ret.
  rewrite Hs. cbn. by rewrite sleep_eq.
Qed.

Lemma polled_false n w :
  sig (api w) = false ->
  polled sig ev (S n) w = polled sig ev n (slept 1 (log (ev false) w)).
Proof. intros Hs. cbn. by rewrite Hs. Qed.

Lemma polled_api n w : api (polled sig ev n w) = ticks n (api w).
Proof.
  revert w. induction n as [|n IH]; intros w; [done|].
  cbn [polled]. by rewrite IH, slept_api, ticks_S.
Qed.

Lemma polled_handler n w :
  on_action_result (polled sig ev n w) = on_action_result w.
Proof.
  revert w. induction n as [|n IH]; intros w; [done|].
  cbn [polled]. by rewrite IH, slept_handler.
Qed.

Lemma polled_cells_length n w :
  length (cells (polled sig ev n w)) = length (cells w).
Proof.
  revert w. induction n as [|n IH]; intros w; [done|].
  cbn [polled]. by rewrite IH, slept_cells_length.
Qed.

(** The trace of [n] rounds that all read [false]. *)
Lemma polled_trace (P : event -> Prop) n w :
  (forall i, i < n -> sig (ticks i (api w)) = false) ->
  is_delivery (ev false) = false ->
  P (ev false) -> P (ESleep 1) -> (forall h r, P (EResult h r)) ->
  exists ext,
    trace (polled sig ev n w) = trace w ++ ext /\
    calls ext = concat (replicate n [ev false; ESleep 1]) /\
    Forall P ext.
Proof.
  intros Hsig Hev P1 P2 P3. revert w Hsig.
  induction n as [|n IH]; intros w Hsig.
  - exists []. by rewrite app_nil_r.
  - assert (Hs : sig (api w) = false) by (apply (Hsig 0); lia).
    rewrite polled_false by done.
    destruct (IH (slept 1 (log (ev false) w))) as (ext & Ht & Hc & HP).
    { intros i Hi. rewrite slept_api. cbn. rewrite <- ticks_S.
      apply Hsig. lia. }
    rewrite Ht, slept_trace. cbn.
    eexists (ev false :: ESleep 1 :: map _ _ ++ ext).
    split; [by rewrite <- !app_assoc|]. split.
    + change (ev false :: ESleep 1 :: ?l) with ([ev false; ESleep 1] ++ l).
      rewrite !calls_app, calls_deliveries, Hc. cbn. by rewrite Hev.
    + repeat constructor; try done.
      apply Forall_app. split; [by apply Forall_deliveries|done].
Qed.

(** Every run of a polling loop: either the signal was false at each of
    the [fuel] polls, or it was first true at poll [n]. *)
Lemma poll_loop_cases fuel w :
  (poll_loop sig ev fuel w = Pending (polled sig ev fuel w) /\
   forall i, i < fuel -> sig (ticks i (api w)) = false) \/
  (exists n, n < fuel /\
     (forall i, i < n -> sig (ticks i (api w)) = false) /\
     sig (ticks n (api w)) = true /\
     poll_loop sig ev fuel w = Done tt (log (ev true) (polled sig ev n w))).
Proof.
  revert w. induction fuel as [|fuel IH]; intros w.
  - left. split; [done|]. intros i Hi. lia.
  - destruct (sig (api w)) eqn:Hs.
    + right. exists 0. repeat split; [lia| intros i Hi; lia | done |].
      by apply poll_loop_true.
    + rewrite poll_loop_false, polled_false by done.
      set (w1 := slept 1 (log (ev false) w)).
      assert (Hw1 : forall i, ticks i (api w1) = ticks (S i) (api w)).
      { intros i. subst w1. by rewrite slept_api, ticks_S. }
      destruct (IH w1) as [[Hp Hf]|(n & Hn & Hf & Ht & Hd)].
      * left. split; [done|]. intros [|i] Hi; [done|].
        rewrite <- Hw1. apply Hf. lia.
      * right. exists (S n). repeat split; [lia| | |].
        -- intros [|i] Hi; [done|]. rewrite <- Hw1. apply Hf. lia.
        -- by rewrite <- Hw1.
        -- by rewrite polled_false.
Qed.

End Polling.

(** ** Waiting for a result *)

Lemma napped_snoc n w : napped (S n) w = slept 1 (napped n w).
Proof.
  revert w. induction n as [|n IH]; intros w; [done|].
  change (napped (S (S n)) w) with (napped (S n) (slept 1 w)).
  by rewrite IH.
Qed.

Lemma napped_api n w : api (napped n w) = ticks n (api w).
Proof.
  revert w. induction n as [|n IH]; intros w; [done|].
  cbn [napped]. by rewrite IH, slept_api, ticks_S.
Qed.

Lemma napped_handler n w : on_action_result (napped n w) = on_action_result w.
Proof.
  revert w. induction n as [|n IH]; intros w; [done|].
  cbn [napped]. by rewrite IH, slept_handler.
Qed.

Lemma napped_cells_length n w : length (cells (napped n w)) = length (cells w).
Proof.
  revert w. induction n as [|n IH]; intros w; [done|].
  cbn [napped]. by rewrite IH, slept_cells_length.
Qed.

(** Sleeps during which nothing is delivered change only the clock. *)
Lemma napped_idle n w :
  (forall i, i < n -> delivered_at i (api w) = []) ->
  trace (napped n w) = trace w ++ replicate n (ESleep 1) /\
  cells (napped n w) = cells w.
Proof.
  revert w. induction n as [|n IH]; intros w Hq.
  - cbn. by rewrite app_nil_r.
  - assert (H0 : (api_elapse 1 (api w)).2 = []) by (apply (Hq 0); lia).
    cbn [napped]. destruct (IH (slept 1 w)) as [Ht Hc].
    { intros i Hi. rewrite slept_api. unfold delivered_at.
      rewrite <- ticks_S. apply Hq. lia. }
    rewrite Ht, Hc, slept_trace, slept_cells, H0. cbn.
    split; [by rewrite <- app_assoc|].
    by destruct (on_action_result w) as [[]|].
Qed.

(** With anything delivered, the script still only sleeps. *)
Lemma napped_trace n w :
  exists ext,
    trace (napped n w) = trace w ++ ext /\
    calls ext = replicate n (ESleep 1) /\
    Forall (fun ev => ev = ESleep 1 \/
                      exists r, ev = EResult (on_action_result w) r) ext.
Proof.
  revert w. induction n as [|n IH]; intros w.
  - exists []. by rewrite app_nil_r.
  - cbn [napped]. destruct (IH (slept 1 w)) as (ext & Ht & Hc & HP).
    rewrite slept_handler in HP. rewrite Ht, slept_trace.
    eexists (ESleep 1 :: map _ _ ++ ext).
    split; [by rewrite <- app_assoc|]. split.
    + change (ESleep 1 :: ?l) with ([ESleep 1] ++ l).
      by rewrite !calls_app, calls_deliveries, Hc.
    + constructor; [by left|]. apply Forall_app. split; [|done].
      apply Forall_deliveries. intros r. right. by exists r.
Qed.

Lemma result_loop_true c fuel w :
  cells w !! c = Some true -> result_loop c (S fuel) w = Done tt w.
Proof.
  intros Hc. unfold result_loop. cbn. unfold bind, read_cell, ret.
  by rewrite Hc.
Qed.

Lemma result_loop_false c fuel w :
  cells w !! c = Some false ->
  result_loop c (S fuel) w = result_loop c fuel (slept 1 w).
Proof.
  intros Hc. unfold result_loop. cbn. unfold bind, read_cell, ret.
  rewrite Hc. cbn. by rewrite sleep_eq.
Qed.

(** Every run of the loop over [triggered], started with [trigger]
    installed and [triggered] false: it ends after the first sleep during
    which the channel delivered something. *)
Lemma result_loop_cases c fuel w :
  on_action_result w = Some (Trigger c) ->
  cells w !! c = Some false ->
  (result_loop c fuel w = Pending (napped fuel w) /\
   forall i, S i < fuel -> delivered_at i (api w) = []) \/
  (exists k, S k < fuel /\
     (forall i, i < k -> delivered_at i (api w) = []) /\
     delivered_at k (api w) <> [] /\
     result_loop c fuel w = Done tt (napped (S k) w)).
Proof.
  revert w. induction fuel as [|fuel IH]; intros w Hh Hc.
  - left. split; [done|]. intros i Hi. lia.
  - rewrite result_loop_false by done.
    set (w1 := slept 1 w).
    assert (Hw1 : forall i, delivered_at i (api w1) = delivered_at (S i) (api w)).
    { intros i. subst w1. unfold delivered_at. by rewrite slept_api, ticks_S. }
    assert (Hh1 : on_action_result w1 = Some (Trigger c))
      by (subst w1; by rewrite slept_handler).
    destruct (delivered_at 0 (api w)) as [|r rs] eqn:Hq.
    + assert (Hc1 : cells w1 !! c = Some false).
      { subst w1. rewrite slept_cells, Hh.
        unfold delivered_at in Hq. cbn in Hq. by rewrite Hq. }
      destruct (IH w1 Hh1 Hc1) as [[Hp Hf]|(k & Hk & Hf & Hd & Hr)].
      * left. split; [done|]. intros [|i] Hi; [done|].
        rewrite <- Hw1. apply Hf. lia.
      * right. exists (S k). repeat split; [lia| | |done].
        -- intros [|i] Hi; [done|]. rewrite <- Hw1. apply Hf. lia.
        -- by rewrite <- Hw1.
    + assert (Hc1 : cells w1 !! c = Some true).
      { subst w1. rewrite slept_cells, Hh.
        unfold delivered_at in Hq. cbn in Hq. rewrite Hq.
        apply list_lookup_insert_eq. by eapply lookup_lt_Some. }
      destruct fuel as [|fuel].
      * left. split; [done|]. intros i Hi. lia.
      * right. exists 0. repeat split; [lia| intros i Hi; lia | by rewrite Hq |].
        by apply result_loop_true.
Qed.

Lemma wait_for_action_result_eq fuel w :
  wait_for_action_result fuel w =
  match result_loop (length (cells w)) fuel (armed w) with
  | Done _ w' => Done tt (restored (on_action_result w) w')
  | Raised e w' => Raised e w'
  | Pending w' => Pending w'
  end.
Proof.
  unfold wait_for_action_result, armed, restored.
  unfold bind at 1 2 3. cbn. rewrite <- app_assoc. cbn.
  unfold bind, result_loop. by destruct (while_ _ _ _ _) as [[] ?| |].
Qed.

(** Every run of [wait_for_action_result]. *)
Lemma wait_for_action_result_cases fuel w :
  (wait_for_action_result fuel w = Pending (napped fuel (armed w)) /\
   forall i, S i < fuel -> delivered_at i (api w) = []) \/
  (exists k, S k < fuel /\
     (forall i, i < k -> delivered_at i (api w) = []) /\
     delivered_at k (api w) <> [] /\
     wait_for_action_result fuel w =
     Done tt (restored (on_action_result w) (napped (S k) (armed w)))).
Proof.
  rewrite wait_for_action_result_eq.
  destruct (result_loop_cases (length (cells w)) fuel (armed w))
    as [[-> Hf]|(k & Hk & Hf & Hd & ->)]; [done| | by left |].
  - cbn. rewrite lookup_app_r by done. by rewrite Nat.sub_diag.
  - right. by exists k.
Qed.

Lemma wait_done_world k w :
  (forall i, i < k -> delivered_at i (api w) = []) ->
  let prev := on_action_result w in
  let trig := Some (Trigger (length (cells w))) in
  let w' := restored prev (napped (S k) (armed w)) in
  api w' = ticks (S k) (api w) /\
  on_action_result w' = prev /\
  (delivered_at k (api w) <> [] -> cells w' = cells w ++ [true]) /\
  length (cells w') = S (length (cells w)) /\
  trace w' =
    trace w ++ EGetHandler prev :: ESetHandler trig ::
      replicate k (ESleep 1) ++ ESleep 1 ::
      map (EResult trig) (delivered_at k (api w)) ++ [ESetHandler prev].
Proof.
  intros Hq prev trig w'. subst w'. rewrite napped_snoc.
  destruct (napped_idle k (armed w) Hq) as [Ht Hc].
  unfold restored. cbn.
  rewrite slept_api, slept_trace, slept_cells_length, napped_cells_length.
  rewrite slept_cells, napped_api, napped_handler, Ht, Hc. cbn.
  rewrite length_app, <- !app_assoc. cbn.
  repeat split; try done; [|lia].
  unfold delivered_at. intros Hd.
  destruct (api_elapse 1 (ticks k (api w))).2; [done|].
  rewrite insert_app_r_alt by done. by rewrite Nat.sub_diag.
Qed.

Lemma wait_pending_world n w :
  let trig := Some (Trigger (length (cells w))) in
  let w' := napped n (armed w) in
  on_action_result w' = trig /\
  exists ext,
    trace w' =
      trace w ++ EGetHandler (on_action_result w) :: ESetHandler trig :: ext /\
    calls ext = replicate n (ESleep 1) /\
    Forall (fun ev => ev = ESleep 1 \/ exists r, ev = EResult trig r) ext.
Proof.
  intros trig w'. subst w'. rewrite napped_handler. split; [done|].
  destruct (napped_trace n (armed w)) as (ext & Ht & Hc & HP).
  exists ext. rewrite Ht. cbn. by rewrite <- app_assoc.
Qed.

(** ** The order of sends *)

Lemma script_ids : cmd_id <$> script.*1 =
  ["id_1"; "id_2"; "id_3"; "id_4"; "id_5"; "id_6"; "id_7"; "id_8"; "id_9"]%string.
Proof. reflexivity. Qed.

Lemma script_ids_NoDup : NoDup (cmd_id <$> script.*1).
Proof. rewrite script_ids. compute_done. Qed.

Lemma script_lookup_inj i j c d d' :
  script !! i = Some (c, d) -> script !! j = Some (c, d') -> i = j.
Proof.
  intros Hi Hj.
  eapply (NoDup_lookup (cmd_id <$> script.*1) i j (cmd_id c)).
  - apply script_ids_NoDup.
  - by rewrite !list_lookup_fmap, Hi.
  - by rewrite !list_lookup_fmap, Hj.
Qed.

Lemma ESend_inj c c' : ESend c = ESend c' -> c = c'.
Proof. destruct c, c'. unfold ESend. cbn. by intros [= -> -> ->]. Qed.

Lemma sent_ESend c t : sent (ESend c :: t) = c :: sent t.
Proof. by destruct c. Qed.

Lemma sent_deliveries h rs : sent (map (EResult h) rs) = [].
Proof. by induction rs. Qed.

Lemma sent_sleeps n d : sent (replicate n (ESleep d)) = [].
Proof. by induction n. Qed.

Lemma observed_app c t t2 : observed c t -> observed c (t ++ t2).
Proof.
  intros (a & b & cell & m & r & z & ->).
  exists a, b, cell, m, r, (z ++ t2).
  by flatten_trace.
Qed.

Lemma ordered_nil : ordered [].
Proof. intros N cN dN cM dM pre post _ _ Heq. by destruct pre. Qed.

Lemma cons_eq {A} (x y : A) (l k : list A) : x :: l = y :: k -> x = y /\ l = k.
Proof. by intros [= -> ->]. Qed.

Lemma ordered_app t t2 : ordered t -> sent t2 = [] -> ordered (t ++ t2).
Proof.
  intros Ho Hs N cN dN cM dM pre post HN HM Heq.
  apply app_eq_inv in Heq as [(k & -> & Hk)|(k & -> & Hk)].
  - destruct k as [|x k].
    + cbn in Hk. subst t2. by rewrite sent_ESend in Hs.
    + apply cons_eq in Hk as [<- _]. by eapply Ho.
  - subst t2. rewrite sent_app, sent_ESend in Hs. by destruct (sent k).
Qed.

Lemma ordered_send t c t2 :
  ordered t -> follows c t -> sent t2 = [] -> ordered (t ++ ESend c :: t2).
Proof.
  intros Ho Hf Hs N cN dN cM dM pre post HN HM Heq.
  apply app_eq_inv in Heq as [(k & -> & Hk)|(k & -> & Hk)].
  - destruct k as [|x k].
    + apply cons_eq in Hk as [Hc _]. apply ESend_inj in Hc as <-.
      rewrite app_nil_r in Hf. by eapply Hf.
    + apply cons_eq in Hk as [<- _]. by eapply Ho.
  - destruct k as [|x k].
    + apply cons_eq in Hk as [Hc _]. apply ESend_inj in Hc as ->.
      rewrite app_nil_r. by eapply Hf.
    + apply cons_eq in Hk as [_ ->]. rewrite sent_app, sent_ESend in Hs.
      by destruct (sent k).
Qed.

Lemma follows_first c d t : script !! 0 = Some (c, d) -> follows c t.
Proof.
  intros H0 N cN dN dM _ HM.
  by pose proof (script_lookup_inj _ _ _ _ _ H0 HM).
Qed.

Lemma follows_next j c d c' d' t :
  script !! j = Some (c, d) -> script !! S j = Some (c', d') ->
  rested c d t -> follows c' t.
Proof.
  intros Hj HSj Hr N cN dN dM HN HM.
  pose proof (script_lookup_inj _ _ _ _ _ HSj HM) as [= <-].
  rewrite Hj in HN. by injection HN as <- <-.
Qed.

(** ** Every run is safe *)

Lemma harmless_sent t : Forall harmless t -> sent t = [].
Proof.
  induction 1 as [|ev t Hev _ IH]; [done|].
  by destruct ev.
Qed.

Lemma harmless_noraise t : Forall harmless t -> Forall noraise t.
Proof. intros Hh. eapply Forall_impl; [done|]. by intros []. Qed.

Lemma harmless_deliveries h rs : Forall harmless (map (EResult h) rs).
Proof. by apply Forall_deliveries. Qed.

Lemma harmless_idle trig t :
  Forall (fun ev => ev = ESleep 1 \/ exists r, ev = EResult trig r) t ->
  Forall harmless t.
Proof. intros Hh. eapply Forall_impl; [done|]. by intros ev [->|[r ->]]. Qed.

Lemma harmless_sleeps n d : Forall harmless (replicate n (ESleep d)).
Proof. by apply Forall_replicate. Qed.

Lemma script_drop j c d r :
  drop j script = (c, d) :: r ->
  script !! j = Some (c, d) /\ drop (S j) script = r.
Proof.
  intros Hd. split.
  - rewrite <- (Nat.add_0_r j), <- lookup_drop. by rewrite Hd.
  - change (S j) with (1 + j). rewrite Nat.add_comm, <- drop_drop. by rewrite Hd.
Qed.

(** A run without exception and without command is safe. *)
Lemma safe_harmless t0 (o : outcome E unit) ext :
  (forall e w', o <> Raised e w') ->
  trace (final o) = t0 ++ ext -> Forall harmless ext ->
  safe_outcome t0 o.
Proof.
  intros Ho Ht Hh. exists ext. split; [done|]. split.
  - apply (ordered_app []); [apply ordered_nil | by apply harmless_sent].
  - split; [exists 0; by rewrite harmless_sent|].
    destruct o as [a w'|e w'|w']; cbn; try by apply harmless_noraise.
    by destruct (Ho e w').
Qed.

Lemma play_safe l : forall j fuel w t0 ext,
  drop j script = l ->
  trace w = t0 ++ ext ->
  ordered ext ->
  sent ext = (take j script).*1 ->
  Forall noraise ext ->
  (forall c d r, l = (c, d) :: r -> follows c ext) ->
  safe_outcome t0 (play l stop fuel w).
Proof.
  induction l as [|[c d] r IH]; intros j fuel w t0 ext Hl Ht Ho Hs Hn Hf.
  - cbn [play].
    destruct (stop_cases fuel w) as [(e & He & ->)|(e' & He & ->)].
    + exists (ext ++ [EStop; ERaise e]). cbn. rewrite Ht. flatten_trace.
      split; [done|]. split; [by apply ordered_app|].
      split; [exists j; by rewrite sent_app, Hs, app_nil_r|].
      exists ext, EStop. by flatten_trace.
    + exists (ext ++ [EStop]). cbn. rewrite Ht. flatten_trace.
      split; [done|]. split; [by apply ordered_app|].
      split; [exists j; by rewrite sent_app, Hs, app_nil_r|].
      apply Forall_app. split; [done|]. by repeat constructor.
  - destruct (script_drop _ _ _ _ Hl) as [Hj Hr].
    assert (Hfc : follows c ext) by (by eapply Hf).
    assert (Hsent : forall t2, sent t2 = [] ->
              sent (ext ++ ESend c :: t2) = (take (S j) script).*1).
    { intros t2 H2. rewrite sent_app, sent_ESend, H2, Hs.
      erewrite take_S_r by done. by rewrite fmap_app. }
    cbn [play].
    destruct (send_action_cases (cmd_id c) (cmd_name c) (cmd_payload c) fuel w)
      as [(e & He & Hsend)|(e' & rs & He & Hsend)].
    + rewrite (bind_raised _ _ _ _ _ _ Hsend).
      exists (ext ++ ESend c :: [ERaise e]). cbn. rewrite Ht. flatten_trace.
      split; [done|]. split; [by apply ordered_send|].
      split; [exists (S j); by apply Hsent|].
      exists ext, (ESend c). by flatten_trace.
    + rewrite (bind_done _ _ _ _ _ _ Hsend).
      set (prev := on_action_result w).
      set (w1 := deliver rs (with_api e' (log (ESendAction _ _ _) w))).
      assert (Hp1 : on_action_result w1 = prev)
        by (subst w1; by rewrite deliver_handler).
      assert (Ht1 : trace w1 = t0 ++ ext ++ ESend c :: map (EResult prev) rs).
      { subst w1. rewrite deliver_trace. cbn. rewrite Ht. by flatten_trace. }
      destruct (wait_for_action_result_cases fuel w1)
        as [[Hw Hq]|(k & Hk & Hq & Hd & Hw)].
      * rewrite (bind_pending _ _ _ _ _ Hw). cbn [final].
        destruct (wait_pending_world fuel w1) as (_ & extn & Htn & _ & HPn).
        apply harmless_idle in HPn.
        set (t2 := map (EResult prev) rs ++ EGetHandler prev ::
                   ESetHandler (Some (Trigger (length (cells w1)))) :: extn).
        assert (H2 : Forall harmless t2).
        { apply Forall_app. split; [apply harmless_deliveries|].
          by repeat constructor. }
        exists (ext ++ ESend c :: t2). subst t2. cbn [final].
        rewrite Htn, Ht1, Hp1. flatten_trace. split; [done|].
        split; [apply ordered_send; auto using harmless_sent|].
        split; [exists (S j); by apply Hsent, harmless_sent|].
        apply Forall_app. split; [done|]. constructor; [done|].
        by apply harmless_noraise.
      * rewrite (bind_done _ _ _ _ _ _ Hw), (bind_done _ _ _ _ _ _ (sleep_eq _ _ _)).
        destruct (wait_done_world k w1 Hq) as (_ & Hp2 & _ & _ & Ht2).
        set (w2 := restored _ _) in *.
        destruct (delivered_at k (api w1)) as [|r1 rs1]; [done|]. clear Hd.
        set (trig := Some (Trigger (length (cells w1)))) in *.
        set (rs2 := (api_elapse d (api w2)).2).
        set (pre := ext ++ ESend c :: (map (EResult prev) rs ++ [EGetHandler prev])
                     ++ ESetHandler trig :: (replicate k (ESleep 1) ++ [ESleep 1])
                     ++ EResult trig r1 ::
                        (map (EResult trig) rs1 ++ [ESetHandler prev])).
        assert (Hobs : observed c pre).
        { by exists ext, (map (EResult prev) rs ++ [EGetHandler prev]),
            (length (cells w1)), (replicate k (ESleep 1) ++ [ESleep 1]), r1,
            (map (EResult trig) rs1 ++ [ESetHandler prev]). }
        assert (Hrest : rested c d (pre ++ ESleep d :: map (EResult prev) rs2)).
        { by exists pre, prev, rs2. }
        assert (Hpre : exists t2, Forall harmless t2 /\
                  pre ++ ESleep d :: map (EResult prev) rs2 = ext ++ ESend c :: t2).
        { eexists. split; [|subst pre; flatten_trace; reflexivity].
          repeat first
            [ apply Forall_app; split
            | apply Forall_cons; split; [done|]
            | apply harmless_deliveries
            | apply harmless_sleeps
            | apply Forall_nil_2 ]. }
        destruct Hpre as (t2 & H2 & Hpre).
        apply (IH (S j) fuel (slept d w2) t0
                 (pre ++ ESleep d :: map (EResult prev) rs2)); [done| | | | |].
        -- rewrite slept_trace, Ht2, Hp2, Ht1, Hp1. subst pre rs2 trig.
           by flatten_trace.
        -- rewrite Hpre. apply ordered_send; auto using harmless_sent.
        -- rewrite Hpre. by apply Hsent, harmless_sent.
        -- rewrite Hpre. apply Forall_app. split; [done|].
           constructor; [done|]. by apply harmless_noraise.
        -- intros c' d' r' ->. destruct (script_drop _ _ _ _ Hr) as [Hj' _].
           by apply (follows_next j c d c' d').
Qed.

(** ** The opening of [main] *)

Lemma calls_cons_call ev t :
  is_delivery ev = false -> calls (ev :: t) = ev :: calls t.
Proof. intros Hev. unfold calls. cbn. by rewrite Hev. Qed.

(** Every run of [main] up to the first command: [start] raised, or one
    of the two polling loops is still waiting, or the run goes on with
    the steps. *)
Lemma opening_cases (rest : M E unit) fuel w :
  let o := (start "localhost" 8000 ;; wait_for_startup ;;
            wait_for_actions_force ;; sleep 10 ;; rest)%co fuel w in
  (exists e, api_start "localhost" 8000 (api w) = inl e /\
     o = Raised e (log (ERaise e) (log (EStart "localhost" 8000) w))) \/
  (exists w' ext, o = Pending w' /\ trace w' = trace w ++ ext /\
     Forall harmless ext) \/
  (exists w' n m ext, o = rest fuel w' /\ trace w' = trace w ++ ext /\
     calls ext = EStart "localhost" 8000 ::
       poll ECurrentGame n ++ poll EActionForced m ++ [ESleep 10] /\
     Forall harmless ext /\
     on_action_result w' = on_action_result w /\
     length (cells w') = length (cells w)).
Proof.
  intros o. subst o.
  destruct (start_cases "localhost" 8000 fuel w)
    as [(e & He & Hst)|(e' & He & Hst)].
  { left. exists e. by rewrite (bind_raised _ _ _ _ _ _ Hst). }
  right. rewrite (bind_done _ _ _ _ _ _ Hst).
  set (w1 := with_api e' (log (EStart "localhost" 8000) w)).
  change wait_for_startup with (poll_loop api_current_game ECurrentGame).
  change wait_for_actions_force with (poll_loop api_action_forced EActionForced).
  destruct (poll_loop_cases api_current_game ECurrentGame fuel w1)
    as [[Hp Hf]|(n & Hn & Hf & _ & Hp)].
  { left. rewrite (bind_pending _ _ _ _ _ Hp).
    destruct (polled_trace api_current_game ECurrentGame harmless fuel w1 Hf)
      as (ext & Ht & _ & Hh); try done.
    eexists _, (EStart "localhost" 8000 :: ext). split; [done|].
    rewrite Ht. cbn. flatten_trace. split; [done|]. by constructor. }
  rewrite (bind_done _ _ _ _ _ _ Hp).
  destruct (polled_trace api_current_game ECurrentGame harmless n w1 Hf)
    as (ext1 & Ht1 & Hc1 & Hh1); try done.
  set (w2 := log (ECurrentGame true) (polled _ _ n w1)).
  destruct (poll_loop_cases api_action_forced EActionForced fuel w2)
    as [[Hp2 Hf2]|(m & Hm & Hf2 & _ & Hp2)].
  { left. rewrite (bind_pending _ _ _ _ _ Hp2).
    destruct (polled_trace api_action_forced EActionForced harmless fuel w2 Hf2)
      as (ext & Ht & _ & Hh); try done.
    eexists _, (EStart "localhost" 8000 :: ext1 ++ ECurrentGame true :: ext).
    split; [done|]. rewrite Ht. cbn. rewrite Ht1. cbn. flatten_trace.
    split; [done|]. constructor; [done|]. apply Forall_app. split; [done|].
    by constructor. }
  right. rewrite (bind_done _ _ _ _ _ _ Hp2).
  rewrite (bind_done _ _ _ _ _ _ (sleep_eq _ _ _)).
  destruct (polled_trace api_action_forced EActionForced harmless m w2 Hf2)
    as (ext2 & Ht2 & Hc2 & Hh2); try done.
  set (w3 := log (EActionForced true) (polled _ _ m w2)).
  exists (slept 10 w3), n, m.
  eexists (EStart "localhost" 8000 :: ext1 ++ ECurrentGame true :: ext2
             ++ EActionForced true :: ESleep 10 :: map (EResult _) _).
  split; [done|]. split; [|split; [|split; [|split]]].
  - rewrite slept_trace. cbn. rewrite Ht2. cbn. rewrite Ht1. cbn.
    by flatten_trace.
  - rewrite calls_cons_call, calls_app by done.
    rewrite calls_cons_call, calls_app by done.
    rewrite !calls_cons_call, calls_deliveries, Hc1, Hc2 by done.
    unfold poll. by flatten_trace.
  - constructor; [done|]. apply Forall_app. split; [done|].
    constructor; [done|]. apply Forall_app. split; [done|].
    constructor; [done|]. constructor; [done|]. apply harmless_deliveries.
  - rewrite slept_handler. cbn. rewrite polled_handler. cbn.
    by rewrite polled_handler.
  - rewrite slept_cells_length. cbn. rewrite polled_cells_length. cbn.
    by rewrite polled_cells_length.
Qed.

(** Every run of [main] is safe. *)
Lemma main_safe fuel w : safe_outcome (trace w) (main fuel w).
Proof.
  rewrite main_sequencer. unfold sequencer.
  destruct (opening_cases (play script stop) fuel w)
    as [(e & He & ->)|[(w' & ext & -> & Ht & Hh)|
        (w' & n & m & ext & -> & Ht & _ & Hh & _)]].
  - exists [EStart "localhost" 8000; ERaise e]. split; [by cbn; flatten_trace|].
    split; [by apply (ordered_app []); [apply ordered_nil|]|].
    split; [by exists 0|]. by exists [], (EStart "localhost" 8000).
  - by eapply safe_harmless.
  - apply (play_safe script 0 fuel w' (trace w) ext); try done.
    + apply (ordered_app []); [apply ordered_nil|by apply harmless_sent].
    + by apply harmless_sent.
    + by apply harmless_noraise.
    + intros c d r Hs. apply (follows_first c d). by rewrite Hs.
Qed.

(** ** Runs that finish *)

Lemma calls_sleeps n d : calls (replicate n (ESleep d)) = replicate n (ESleep d).
Proof.
  induction n as [|n IH]; [done|].
  cbn [replicate]. by rewrite calls_cons_call, IH.
Qed.

Ltac calls_simpl :=
  repeat progress
    (rewrite ?calls_app, ?calls_deliveries, ?calls_sleeps;
     rewrite ?calls_cons_call by done).

Lemma deliver_cells_length rs w : length (cells (deliver rs w)) = length (cells w).
Proof.
  rewrite deliver_cells.
  destruct (on_action_result w) as [[]|], rs; by rewrite ?length_insert.
Qed.

Lemma sent_steps_calls prev c l ks :
  length ks = length l -> sent (steps_calls prev c l ks) = l.*1.
Proof.
  revert c ks. induction l as [|[cmd d] r IH]; intros c [|k ks] Hlen; try done.
  cbn [steps_calls]. rewrite sent_ESend. unfold result_wait.
  rewrite !sent_app, sent_sleeps. cbn. rewrite IH by (cbn in Hlen; lia).
  done.
Qed.

(** A run of the steps [l] that finished made exactly the calls of
    [steps_calls], and went on with [rest]. *)
Lemma play_done l : forall (rest : M E unit) fuel w w',
  play l rest fuel w = Done tt w' ->
  exists wm ks ext,
    length ks = length l /\
    trace wm = trace w ++ ext /\
    calls ext = steps_calls (on_action_result w) (length (cells w)) l ks /\
    on_action_result wm = on_action_result w /\
    length (cells wm) = length (cells w) + length l /\
    rest fuel wm = Done tt w'.
Proof.
  induction l as [|[c d] r IH]; intros rest fuel w w' Hrun.
  - exists w, [], []. rewrite app_nil_r. cbn. by rewrite Nat.add_0_r.
  - cbn [play] in Hrun.
    destruct (send_action_cases (cmd_id c) (cmd_name c) (cmd_payload c) fuel w)
      as [(e & He & Hsend)|(e' & rs & He & Hsend)].
    { by rewrite (bind_raised _ _ _ _ _ _ Hsend) in Hrun. }
    rewrite (bind_done _ _ _ _ _ _ Hsend) in Hrun.
    set (prev := on_action_result w).
    set (w1 := deliver rs (with_api e' (log (ESendAction _ _ _) w))) in *.
    assert (Hp1 : on_action_result w1 = prev)
      by (subst w1; by rewrite deliver_handler).
    assert (Hl1 : length (cells w1) = length (cells w))
      by (subst w1; by rewrite deliver_cells_length).
    assert (Ht1 : trace w1 = trace w ++ ESend c :: map (EResult prev) rs).
    { subst w1. rewrite deliver_trace. cbn. by flatten_trace. }
    destruct (wait_for_action_result_cases fuel w1)
      as [[Hw Hq]|(k & Hk & Hq & Hd & Hw)].
    { by rewrite (bind_pending _ _ _ _ _ Hw) in Hrun. }
    rewrite (bind_done _ _ _ _ _ _ Hw) in Hrun.
    rewrite (bind_done _ _ _ _ _ _ (sleep_eq _ _ _)) in Hrun.
    destruct (wait_done_world k w1 Hq) as (_ & Hp2 & _ & Hl2 & Ht2).
    set (w2 := restored _ _) in *.
    destruct (IH rest fuel (slept d w2) w' Hrun)
      as (wm & ks & ext & Hlen & Htm & Hcm & Hpm & Hlm & Hrest).
    rewrite slept_handler, Hp2, Hp1 in Hcm, Hpm.
    rewrite slept_cells_length, Hl2, Hl1 in Hcm, Hlm.
    rewrite slept_trace, Ht2, Ht1, Hp2, Hp1 in Htm.
    revert Htm. flatten_trace. intros Htm.
    exists wm, (k :: ks). eexists. split; [cbn; by rewrite Hlen|].
    split; [exact Htm|].
    split; [|split; [done|split; [cbn; lia|done]]].
    calls_simpl. rewrite Hcm, Hl1.
    cbn [steps_calls]. unfold result_wait. rewrite replicate_S_end.
    by flatten_trace.
Qed.

(** A run of [main] that finished: the exact sequence of its calls. *)
Lemma main_done fuel w w' :
  main fuel w = Done tt w' ->
  exists n m ks ext,
    length ks = length script /\
    trace w' = trace w ++ ext /\
    calls ext =
      EStart "localhost" 8000 :: poll ECurrentGame n ++ poll EActionForced m
        ++ ESleep 10 ::
           steps_calls (on_action_result w) (length (cells w)) script ks
        ++ [EStop] /\
    on_action_result w' = on_action_result w.
Proof.
  rewrite main_sequencer. unfold sequencer. intros Hrun.
  destruct (opening_cases (play script stop) fuel w)
    as [(e & He & Ho)|[(w0 & ext & Ho & Ht & Hh)|
        (w0 & n & m & ext & Ho & Ht & Hc & Hh & Hp & Hl)]];
    rewrite Ho in Hrun; try done.
  destruct (play_done script stop fuel w0 w' Hrun)
    as (wm & ks & ext2 & Hlen & Htm & Hcm & Hpm & Hlm & Hstop).
  destruct (stop_cases fuel wm) as [(e & He & Hs)|(e' & He & Hs)];
    rewrite Hs in Hstop; [done|].
  injection Hstop as <-.
  exists n, m, ks, (ext ++ ext2 ++ [EStop]). split; [done|].
  split; [cbn; rewrite Htm, Ht; by flatten_trace|].
  split; [|cbn; by rewrite Hpm].
  rewrite !calls_app, Hc, Hcm, Hp, Hl. cbn. by flatten_trace.
Qed.

End Facts.

(** ** What [json.dumps] writes is JSON *)

Lemma json_run_app st a b :
  json_run st (a ++ b)%string = json_run (json_run st a) b.
Proof. revert st. induction a as [|c a IH]; intros st; [done|]. apply IH. Qed.

Lemma json_run_escape_char_key c :
  json_run (JKey SPlain) (escape_char c) = JKey SPlain.
Proof. destruct c as [[] [] [] [] [] [] [] []]; reflexivity. Qed.

Lemma json_run_escape_char_val c :
  json_run (JVal SPlain) (escape_char c) = JVal SPlain.
Proof. destruct c as [[] [] [] [] [] [] [] []]; reflexivity. Qed.

Lemma json_run_escape_chars_key s :
  json_run (JKey SPlain) (escape_chars s) = JKey SPlain.
Proof.
  induction s as [|c s IH]; [done|].
  cbn [escape_chars]. by rewrite json_run_app, json_run_escape_char_key.
Qed.

Lemma json_run_escape_chars_val s :
  json_run (JVal SPlain) (escape_chars s) = JVal SPlain.
Proof.
  induction s as [|c s IH]; [done|].
  cbn [escape_chars]. by rewrite json_run_app, json_run_escape_char_val.
Qed.

Lemma json_run_key st k rest :
  st = JOpen \/ st = JComma ->
  json_run st (py_encode_basestring_ascii k ++ rest)%string =
  json_run JColon rest.
Proof.
  intros Hst. unfold py_encode_basestring_ascii.
  change (json_run st (String dquote ?x ++ rest)%string)
    with (json_run (json_step st dquote) (x ++ rest)%string).
  replace (json_step st dquote) with (JKey SPlain) by by destruct Hst as [->| ->].
  by rewrite !json_run_app, json_run_escape_chars_key.
Qed.

Lemma json_run_value s rest :
  json_run JValue (py_encode_basestring_ascii s ++ rest)%string =
  json_run JNext rest.
Proof.
  unfold py_encode_basestring_ascii.
  change (json_run JValue (String dquote ?x ++ rest)%string)
    with (json_run (JVal SPlain) (x ++ rest)%string).
  by rewrite !json_run_app, json_run_escape_chars_val.
Qed.

Lemma json_run_items items :
  json_run JNext (dump_items json_dumps (str_items items) false ++ "}")%string
  = JEnd.
Proof.
  induction items as [|[k v] items IH]; [done|].
  cbn [str_items map dump_items fst snd json_dumps].
  change (json_run JNext ((", " ++ ?x) ++ "}")%string)
    with (json_run JComma (x ++ "}")%string).
  rewrite json_run_app, json_run_key by auto.
  change (json_run JColon (": " ++ ?x)%string) with (json_run JValue x).
  by rewrite json_run_value, <- json_run_app.
Qed.

(** [json.dumps] of a dictionary of strings is a JSON object. *)
Lemma json_dumps_is_json_object items :
  is_json_object (json_dumps (PyDict (str_items items))) = true.
Proof.
  unfold is_json_object. cbn [json_dumps].
  change (json_run JStart ("{" ++ ?x)%string) with (json_run JOpen x).
  destruct items as [|[k v] items]; [done|].
  cbn [str_items map dump_items fst snd json_dumps].
  change (("" ++ ?x)%string) with x.
  rewrite json_run_app, json_run_key by auto.
  change (json_run JColon (": " ++ ?x)%string) with (json_run JValue x).
  rewrite json_run_value, <- json_run_app.
  pose proof (json_run_items items) as Hitems. unfold str_items in Hitems.
  by rewrite Hitems.
Qed.

(** ** The payloads of the script *)

Lemma script_payloads : Forall (fun c => json_or_none (cmd_payload c)) script.*1.
Proof.
  assert (Hd : forall items, json_or_none (dumps items)).
  { intros items. right. exists items.
    split; [done|apply json_dumps_is_json_object]. }
  assert (Hn : json_or_none None) by by left.
  repeat (apply List.Forall_cons; [first [apply Hd | apply Hn]|]).
  apply List.Forall_nil.
Qed.

Lemma elem_of_sent i n p t :
  ESendAction i n p ∈ t -> mkCommand i n p ∈ sent t.
Proof.
  induction t as [|ev t IH]; intros Hin; [by apply elem_of_nil in Hin|].
  apply elem_of_cons in Hin as [<-|Hin].
  - apply list_elem_of_here.
  - specialize (IH Hin). destruct ev; cbn; try done.
    by apply list_elem_of_further.
Qed.

(** * The claims *)

Section Claims.

Context {E : Type} `{NeuroAPI E}.

Implicit Types (w : World E) (fuel : nat).

Lemma sent_poll ev n :
  (forall b, sent [ev b] = []) -> sent (poll ev n) = [].
Proof.
  intros Hev. unfold poll. rewrite sent_app, (Hev true), app_nil_r.
  induction n as [|n IH]; [done|].
  cbn [replicate concat]. rewrite sent_app, IH, app_nil_r.
  change [ev false; ESleep 1] with ([ev false] ++ [ESleep 1]).
  by rewrite sent_app, Hev.
Qed.

Lemma main_done_sent fuel w w' ext :
  main fuel w = Done tt w' -> trace w' = trace w ++ ext ->
  sent ext = script.*1.
Proof.
  intros Hrun Ht.
  destruct (main_done fuel w w' Hrun) as (n & m & ks & ext' & Hlen & Ht' & Hc & _).
  rewrite Ht' in Ht. apply app_inv_head in Ht as <-.
  rewrite <- sent_calls, Hc. cbn [sent].
  rewrite !sent_app, !sent_poll by done. cbn [sent app].
  by rewrite sent_app, sent_steps_calls, app_nil_r.
Qed.

(** C2, amended: every run of [main] that returns made, in this order: the call
    of [start]; one polling loop on [current_game]; one polling loop on
    [action_forced]; the settle sleep; for each of the nine steps of the
    script, in script order, one [send_action] followed by exactly one
    [wait_for_action_result] (handler read, [trigger] installed, at
    least one sleep, handler restored) and the pause of the step; and
    the call of [stop].  The channel saw exactly the nine commands of
    the script. *)
Theorem main_sends_script_in_order fuel w w' :
  main fuel w = Done tt w' ->
  exists n m ks ext,
    length ks = 9 /\
    trace w' = trace w ++ ext /\
    calls ext =
      EStart "localhost" 8000 :: poll ECurrentGame n ++ poll EActionForced m
        ++ ESleep 10 ::
           steps_calls (on_action_result w) (length (cells w)) script ks
        ++ [EStop] /\
    sent ext = script.*1 /\
    length (sent ext) = 9.
Proof.
  intros Hrun.
  destruct (main_done fuel w w' Hrun) as (n & m & ks & ext & Hlen & Ht & Hc & _).
  exists n, m, ks, ext. repeat split; try done.
  - by eapply main_done_sent.
  - by erewrite main_done_sent.
Qed.

(** C3: in every run of [main], finished or not, on every channel: when
    the command of step [N + 1] is sent, the trace before it contains
    the send of step [N], after it the installation of a [trigger],
    after that a call of this [trigger] by the channel, and it ends with
    the sleep of the pause of step [N] (and what the channel delivered
    during it). *)
Theorem sends_strictly_ordered fuel w :
  exists ext,
    trace (final (main fuel w)) = trace w ++ ext /\
    forall N cN dN cM dM pre post,
      script !! N = Some (cN, dN) ->
      script !! S N = Some (cM, dM) ->
      ext = pre ++ ESend cM :: post ->
      exists before h rs a b cell m r z,
        pre = before ++ ESleep dN :: map (EResult h) rs /\
        before = a ++ ESend cN :: b ++ ESetHandler (Some (Trigger cell)) :: m
                   ++ EResult (Some (Trigger cell)) r :: z.
Proof.
  destruct (main_safe fuel w) as (ext & Ht & Ho & _).
  exists ext. split; [done|].
  intros N cN dN cM dM pre post HN HM Heq.
  destruct (Ho N cN dN cM dM pre post HN HM Heq)
    as (before & h & rs & Hpre & a & b & cell & m & r & z & Hb).
  by exists before, h, rs, a, b, cell, m, r, z.
Qed.

(** C4: a call of [wait_for_action_result] that returns leaves in
    [api.on_action_result] what was there at entry; it wrote the slot
    twice, first to install [trigger] and last, as the final thing it
    did, to put back the handler it had read, also when that was
    [None]. *)
Theorem wait_for_action_result_restores fuel w w' :
  wait_for_action_result fuel w = Done tt w' ->
  let prev := on_action_result w in
  on_action_result w' = prev /\
  exists body,
    trace w' =
      trace w ++ EGetHandler prev ::
        ESetHandler (Some (Trigger (length (cells w)))) ::
        body ++ [ESetHandler prev] /\
    Forall (fun ev => is_set_handler ev = false) body.
Proof.
  intros Hrun prev. subst prev.
  destruct (wait_for_action_result_cases fuel w)
    as [[Hw _]|(k & Hk & Hq & Hd & Hw)]; rewrite Hw in Hrun; [done|].
  assert (w' = restored (on_action_result w) (napped (S k) (armed w)))
    as -> by congruence.
  destruct (wait_done_world k w Hq) as (_ & Hp & _ & _ & Ht).
  split; [done|].
  exists (replicate k (ESleep 1) ++ ESleep 1 ::
          map (EResult (Some (Trigger (length (cells w)))))
            (delivered_at k (api w))).
  split; [rewrite Ht; by flatten_trace|].
  apply Forall_app. split; [by apply Forall_replicate|].
  constructor; [done|]. by apply Forall_deliveries.
Qed.

(** C5: let the channel deliver nothing in the first [k] polling
    intervals after a call of [wait_for_action_result], and the
    notifications [r :: rs] in the next one.  After the [k] quiet
    intervals the call is suspended with its [trigger] installed and its
    [triggered] false.  One call of the handler in that state sets
    [triggered]; a second call leaves the cells as the first left them.
    Observed for more than [k + 1] polls, [wait_for_action_result]
    returns right after the interval of the first notification, having
    slept [k + 1] times: every notification of that interval went to
    [trigger], and the state it leaves (one new cell, set; the saved
    handler back; the channel [k + 1] intervals on) is the same whether
    [trigger] was called once or more often. *)
Theorem trigger_counts_once fuel w k r rs :
  (forall i, i < k -> delivered_at i (api w) = []) ->
  delivered_at k (api w) = r :: rs ->
  S k < fuel ->
  let prev := on_action_result w in
  let trig := Some (Trigger (length (cells w))) in
  exists w0 w',
    wait_for_action_result k w = Pending w0 /\
    on_action_result w0 = trig /\
    cells w0 = cells w ++ [false] /\
    cells (invoke r w0) = cells w ++ [true] /\
    (forall r2, cells (invoke r2 (invoke r w0)) = cells (invoke r w0)) /\
    wait_for_action_result fuel w = Done tt w' /\
    cells w' = cells w ++ [true] /\
    on_action_result w' = prev /\
    api w' = ticks (S k) (api w) /\
    trace w' =
      trace w ++ EGetHandler prev :: ESetHandler trig ::
        replicate (S k) (ESleep 1) ++ map (EResult trig) (r :: rs)
        ++ [ESetHandler prev].
Proof.
  intros Hq Hdel Hfuel prev trig. subst prev trig.
  assert (Hne : delivered_at k (api w) <> []) by by rewrite Hdel.
  exists (napped k (armed w)).
  exists (restored (on_action_result w) (napped (S k) (armed w))).
  destruct (napped_idle k (armed w) Hq) as [_ Hc0].
  assert (Hh0 : on_action_result (napped k (armed w))
                = Some (Trigger (length (cells w))))
    by by rewrite napped_handler.
  assert (Hone : cells (invoke r (napped k (armed w))) = cells w ++ [true]).
  { rewrite invoke_cells, Hh0, Hc0. cbn.
    rewrite insert_app_r_alt by done. by rewrite Nat.sub_diag. }
  split.
  { destruct (wait_for_action_result_cases k w)
      as [[Hw _]|(k0 & Hk0 & _ & Hd0 & _)]; [done|].
    destruct Hd0. apply Hq. lia. }
  split; [done|]. split; [by rewrite Hc0|]. split; [done|].
  split.
  { intros r2. rewrite (invoke_cells r2), invoke_handler, Hh0, Hone.
    rewrite insert_app_r_alt by done. by rewrite Nat.sub_diag. }
  destruct (wait_done_world k w Hq) as (Ha & Hp & Hc & _ & Ht).
  split.
  { destruct (wait_for_action_result_cases fuel w)
      as [[_ Hf]|(k1 & Hk1 & Hf1 & Hd1 & Hw)].
    { destruct Hne. apply Hf. lia. }
    destruct (Nat.lt_trichotomy k k1) as [Hlt|[<-|Hlt]]; [|done|].
    - by destruct (Hne (Hf1 k Hlt)).
    - by destruct (Hd1 (Hq k1 Hlt)). }
  split; [by apply Hc|]. split; [done|]. split; [done|].
  etrans; [exact Ht|]. rewrite Hdel, replicate_S_end.
  by rewrite <- !app_assoc.
Qed.

(** C6: a call of [wait_for_startup] that returns has read
    [api.current_game] as true in the state the channel is left in, as
    the last thing it did; until then it only read that signal and
    slept, so the channel state moved by the passing of [n] polling
    intervals alone and [api.on_action_result] is what it was. *)
Theorem wait_for_startup_ready fuel w w' :
  wait_for_startup fuel w = Done tt w' ->
  api_current_game (api w') = true /\
  on_action_result w' = on_action_result w /\
  exists n ext,
    api w' = ticks n (api w) /\
    trace w' = trace w ++ ext ++ [ECurrentGame true] /\
    Forall passive ext /\
    calls (ext ++ [ECurrentGame true]) = poll ECurrentGame n.
Proof.
  change wait_for_startup with (poll_loop api_current_game ECurrentGame).
  intros Hrun.
  destruct (poll_loop_cases api_current_game ECurrentGame fuel w)
    as [[Hp _]|(n & Hn & Hf & Ht & Hp)]; rewrite Hp in Hrun; [done|].
  assert (w' = log (ECurrentGame true)
                 (polled api_current_game ECurrentGame n w))
    as -> by congruence.
  destruct (polled_trace api_current_game ECurrentGame passive n w Hf)
    as (ext & Hext & Hc & HP); try done.
  cbn. rewrite polled_api, polled_handler. repeat split; try done.
  exists n, ext. rewrite Hext, calls_app, Hc. repeat split; try done.
  by flatten_trace.
Qed.

(** The polling loops have no way out but their signal. *)
Lemma poll_loop_never sig ev fuel w :
  (forall n, sig (ticks n (api w)) = false) ->
  poll_loop sig ev fuel w = Pending (polled sig ev fuel w).
Proof.
  intros Hnever.
  destruct (poll_loop_cases sig ev fuel w) as [[Hp _]|(n & _ & _ & Ht & _)];
    [done|]. by rewrite Hnever in Ht.
Qed.

Lemma poll_loop_eventually sig ev w :
  (exists n, forall m, n <= m -> sig (ticks m (api w)) = true) ->
  exists fuel w', forall fuel', fuel <= fuel' ->
    poll_loop sig ev fuel' w = Done tt w'.
Proof.
  intros [n Hn].
  destruct (poll_loop_cases sig ev (S n) w)
    as [[_ Hf]|(n0 & Hn0 & Hf0 & Ht0 & _)].
  { specialize (Hf n (Nat.lt_succ_diag_r n)). by rewrite Hn in Hf. }
  exists (S n), (log (ev true) (polled sig ev n0 w)). intros fuel' Hfuel.
  destruct (poll_loop_cases sig ev fuel' w)
    as [[_ Hf]|(n1 & Hn1 & Hf1 & Ht1 & ->)].
  { rewrite Hf in Ht0 by lia. done. }
  destruct (Nat.lt_trichotomy n0 n1) as [Hlt|[->|Hlt]]; [|done|].
  - by rewrite (Hf1 n0 Hlt) in Ht0.
  - by rewrite (Hf0 n1 Hlt) in Ht1.
Qed.

(** C7: on a channel whose readiness signal is false at every polling
    interval, [wait_for_startup] is still suspended after any number of
    polls, and likewise [wait_for_actions_force] for the forced-action
    signal: neither has a timeout.  On a channel whose signal is true
    from some polling interval on, the waiter returns, and returns the
    same for every longer observation. *)
Theorem waiters_have_no_timeout w :
  ((forall n, api_current_game (ticks n (api w)) = false) ->
   forall fuel, exists w', wait_for_startup fuel w = Pending w') /\
  ((forall n, api_action_forced (ticks n (api w)) = false) ->
   forall fuel, exists w', wait_for_actions_force fuel w = Pending w') /\
  ((exists n, forall m, n <= m -> api_current_game (ticks m (api w)) = true) ->
   exists fuel w', forall fuel', fuel <= fuel' ->
     wait_for_startup fuel' w = Done tt w') /\
  ((exists n, forall m, n <= m -> api_action_forced (ticks m (api w)) = true) ->
   exists fuel w', forall fuel', fuel <= fuel' ->
     wait_for_actions_force fuel' w = Done tt w').
Proof.
  change wait_for_startup with (poll_loop api_current_game ECurrentGame).
  change wait_for_actions_force with (poll_loop api_action_forced EActionForced).
  repeat split.
  - intros Hnever fuel. eexists. by apply poll_loop_never.
  - intros Hnever fuel. eexists. by apply poll_loop_never.
  - apply poll_loop_eventually.
  - apply poll_loop_eventually.
Qed.

(** C8: the script has no handler for exceptions.  If [start] raises,
    [main] ends with that exception right there.  If the [send_action]
    of a step raises, the rest of the script, and with it every later
    [send_action] and the [stop], is not run.  And in every run of
    [main] an exception shows at most once, as the last entry of the
    trace, directly after the call of [start], [send_action] or [stop]
    it came out of, and it is the outcome of the run. *)
Theorem exceptions_propagate fuel w :
  (forall e, api_start "localhost" 8000 (api w) = inl e ->
     main fuel w =
     Raised e (log (ERaise e) (log (EStart "localhost" 8000) w))) /\
  (forall c d r (rest : M E unit) w1 e,
     api_send_action (cmd_id c) (cmd_name c) (cmd_payload c) (api w1) = inl e ->
     play ((c, d) :: r) rest fuel w1 =
     Raised e (log (ERaise e) (log (ESend c) w1))) /\
  exists ext,
    trace (final (main fuel w)) = trace w ++ ext /\
    match main fuel w with
    | Raised e w' =>
        exists pre c, ext = pre ++ [c; ERaise e] /\
          raised_by c (api w') e /\ Forall noraise pre
    | _ => Forall noraise ext
    end.
Proof.
  split; [|split].
  - intros e He. rewrite main_sequencer. unfold sequencer.
    destruct (start_cases "localhost" 8000 fuel w)
      as [(e1 & He1 & Hst)|(e' & He' & _)]; [|congruence].
    rewrite (bind_raised _ _ _ _ _ _ Hst). congruence.
  - intros c d r rest w1 e He. cbn [play].
    destruct (send_action_cases (cmd_id c) (cmd_name c) (cmd_payload c) fuel w1)
      as [(e1 & He1 & Hsend)|(e' & rs & He' & _)]; [|congruence].
    rewrite (bind_raised _ _ _ _ _ _ Hsend). unfold ESend. congruence.
  - destruct (main_safe fuel w) as (ext & Ht & _ & _ & Hp).
    exists ext. split; [done|]. exact Hp.
Qed.

(** C9: a run of [main] that finishes passed to [send_action] the ids
    [id_1] to [id_9], in this order, each of them once. *)
Theorem script_ids_distinct fuel w w' :
  main fuel w = Done tt w' ->
  exists ext,
    trace w' = trace w ++ ext /\
    cmd_id <$> sent ext =
      ["id_1"; "id_2"; "id_3"; "id_4"; "id_5"; "id_6"; "id_7"; "id_8";
       "id_9"]%string /\
    NoDup (cmd_id <$> sent ext).
Proof.
  intros Hrun.
  destruct (main_done fuel w w' Hrun) as (n & m & ks & ext & _ & Ht & _).
  exists ext. rewrite (main_done_sent fuel w w' ext Hrun Ht).
  split; [done|]. split; [apply script_ids|apply script_ids_NoDup].
Qed.

(** C10: in every run of [main], finished or not, on every channel, the
    payload of every [send_action] is [None] or the string that
    [json.dumps] makes of a dictionary with string keys (and string
    values), and this string is a JSON object. *)
Theorem payloads_are_json fuel w :
  exists ext,
    trace (final (main fuel w)) = trace w ++ ext /\
    forall i n p, ESendAction i n p ∈ ext ->
      p = None \/
      exists items : list (string * string),
        p = Some (json_dumps (PyDict (str_items items))) /\
        is_json_object (json_dumps (PyDict (str_items items))) = true.
Proof.
  destruct (main_safe fuel w) as (ext & Ht & _ & [j Hj] & _).
  exists ext. split; [done|]. intros i n p Hin.
  apply elem_of_sent in Hin. rewrite Hj in Hin.
  assert (Hscript : mkCommand i n p ∈ script.*1).
  { rewrite <- (take_drop j script), fmap_app. apply elem_of_app. by left. }
  pose proof script_payloads as Hall. rewrite Forall_forall in Hall.
  exact (Hall _ Hscript).
Qed.

End Claims.


(** ** The end-to-end scenario *)

Lemma idle_no_stop trig t :
  Forall (fun ev => ev = ESleep 1 \/ exists r, ev = EResult trig r) t ->
  List.filter is_stop t = [].
Proof.
  induction 1 as [|ev t Hev _ IH]; [done|].
  by destruct Hev as [->|[r ->]].
Qed.

Lemma sync_channel_run f :
  @main scenario sync_channel (4 + f) scenario_start =
  Pending (@napped scenario sync_channel (4 + f) (armed sync_first_sent)).
Proof.
  assert (Hopen :
    @main scenario sync_channel (4 + f) scenario_start =
    bind (@wait_for_action_result scenario sync_channel)
      (fun _ => bind (@sleep scenario sync_channel 30)
         (fun _ => @play scenario sync_channel (tail script)
                     (@stop scenario sync_channel)))
      (4 + f) sync_first_sent) by (vm_compute; reflexivity).
  rewrite Hopen. apply bind_pending.
  destruct (@wait_for_action_result_cases scenario sync_channel
              (4 + f) sync_first_sent)
    as [[Hw _]|(k & _ & _ & Hd & _)]; [done|].
  by destruct Hd.
Qed.

Lemma sync_channel_run_pending fuel :
  exists w',
    @main scenario sync_channel fuel scenario_start = Pending w' /\
    length (sent (trace w')) <= 1 /\
    List.filter is_stop (trace w') = [].
Proof.
  destruct fuel as [|[|[|[|f]]]];
    try (eexists; split; [vm_compute; reflexivity|]; split;
         [vm_compute; lia | vm_compute; reflexivity]).
  change (S (S (S (S f)))) with (4 + f). rewrite sync_channel_run.
  eexists. split; [reflexivity|].
  destruct (@wait_pending_world scenario sync_channel (4 + f) sync_first_sent)
    as (_ & ext & Ht & _ & Hidle).
  rewrite Ht. split.
  - rewrite sent_app. cbn [sent]. rewrite (harmless_sent ext).
    + vm_compute. lia.
    + by eapply harmless_idle.
  - rewrite List.filter_app. cbn [List.filter is_stop].
    rewrite (idle_no_stop _ _ Hidle). vm_compute. reflexivity.
Qed.

(** C1, as stated, fails: on the channel that calls the handler inside
    every [send_action] the result of [id_1] goes to the handler that is
    installed during the call, which is not yet [trigger]; the script
    then waits for a second notification that never comes.  No run
    finishes; however long a run is observed it is suspended, has sent
    at most one command, and has not called [stop]. *)
Lemma sync_channel_never_completes :
  (~ exists fuel w',
       @main scenario sync_channel fuel scenario_start = Done tt w') /\
  (forall fuel, exists w',
     @main scenario sync_channel fuel scenario_start = Pending w' /\
     length (sent (trace w')) <= 1 /\
     List.filter is_stop (trace w') = []).
Proof.
  split; [|apply sync_channel_run_pending].
  intros (fuel & w' & Hdone).
  destruct (sync_channel_run_pending fuel) as (w2 & Hpending & _).
  congruence.
Qed.

(** C1, amended: on the channel that becomes ready after 2 polling
    intervals, reports a forced action after 3 more, and hands the
    result of every command to the installed handler at the first
    suspension of the script after the [send_action] call, every run of
    [main] observed for at least 4 polls per wait finishes; the channel
    saw the nine commands [id_1] .. [id_9] in this order, then one call
    of [stop], which is the last entry of the trace, and every command
    after the first was sent after the result of the one before had been
    observed and its pause slept. *)
Theorem scenario_run_completes fuel :
  4 <= fuel ->
  exists w',
    @main scenario queued_channel fuel scenario_start = Done tt w' /\
    cmd_id <$> sent (trace w') =
      ["id_1"; "id_2"; "id_3"; "id_4"; "id_5"; "id_6"; "id_7"; "id_8";
       "id_9"]%string /\
    sent (trace w') = script.*1 /\
    List.filter is_stop (trace w') = [EStop] /\
    last (trace w') = Some EStop /\
    ordered (trace w').
Proof.
  intros Hfuel.
  assert (Hrun : @main scenario queued_channel fuel scenario_start
                 = Done tt scenario_end).
  { do 4 (destruct fuel as [|fuel]; [lia|]). clear Hfuel.
    vm_compute. reflexivity. }
  exists scenario_end. split; [done|].
  do 4 (split; [vm_compute; reflexivity|]).
  destruct (@main_safe scenario queued_channel fuel scenario_start)
    as (ext & Ht & Ho & _).
  rewrite Hrun in Ht. cbn [final] in Ht.
  change (trace scenario_start) with (@nil event) in Ht.
  by rewrite Ht.
Qed.

(** A transport that fails at the third command ends the run there: the
    exception is the outcome, three commands were sent, [stop] was not
    called. *)
Example failing_send_stops_run :
  exists w',
    @main scenario failing_channel 10 scenario_start = Raised broken_pipe w' /\
    cmd_id <$> sent (trace w') = ["id_1"; "id_2"; "id_3"]%string /\
    List.filter is_stop (trace w') = [] /\
    last (trace w') = Some (ERaise broken_pipe).
Proof.
  eexists. split; [vm_compute; reflexivity|].
  repeat split; vm_compute; reflexivity.
Qed.

(** ** Runs that do not return *)

Section DeadChannel.

#[local] Existing Instance dead_channel.

(** On the channel on which nothing happens [main] waits for the session
    for ever and sends nothing. *)
Lemma dead_channel_run_pending fuel :
  exists w',
    main fuel (boot tt None) = Pending w' /\ sent (trace w') = [].
Proof.
  rewrite main_sequencer. unfold sequencer.
  destruct (start_cases "localhost" 8000 fuel (boot tt None))
    as [(e & He & _)|(e' & _ & Hst)]; [done|].
  rewrite (bind_done _ _ _ _ _ _ Hst).
  change wait_for_startup with (poll_loop api_current_game ECurrentGame).
  set (w1 := with_api e' _).
  assert (Hnever : forall n, api_current_game (ticks n (api w1)) = false)
    by done.
  rewrite (bind_pending _ _ _ _ _
             (poll_loop_never api_current_game ECurrentGame fuel w1 Hnever)).
  eexists. split; [reflexivity|].
  destruct (polled_trace api_current_game ECurrentGame harmless fuel w1)
    as (ext & Ht & _ & Hh); try done.
  rewrite Ht, sent_app, (harmless_sent ext Hh). done.
Qed.

End DeadChannel.

(** C2, as stated, fails: not every run of [main] shows the channel nine
    commands.  On a channel whose transport breaks at the third command
    the run ends there with the exception, after three [send_action]
    calls; on a channel on which no session ever attaches the run is
    suspended in [wait_for_startup] however long it is observed, and no
    command is sent. *)
Lemma main_run_may_stop_early :
  (exists w',
     @main scenario failing_channel 10 scenario_start
     = Raised broken_pipe w' /\
     length (sent (trace w')) = 3) /\
  (forall fuel, exists w',
     @main unit dead_channel fuel (boot tt None) = Pending w' /\
     sent (trace w') = []).
Proof.
  split; [|apply dead_channel_run_pending].
  eexists. split; [vm_compute; reflexivity|]. vm_compute. reflexivity.
Qed.

(** * Witnesses *)

Lemma queued_clock m s :
  clock (@ticks scenario queued_channel m s) = m + clock s.
Proof.
  induction m as [|m IH]; [done|].
  change (@ticks scenario queued_channel (S m) s)
    with ((@api_elapse scenario queued_channel 1
             (@ticks scenario queued_channel m s)).1).
  cbn. rewrite IH. lia.
Qed.

Lemma scenario_run_completes_witness :
  4 <= 10 /\
  exists w',
    @main scenario queued_channel 10 scenario_start = Done tt w' /\
    cmd_id <$> sent (trace w') =
      ["id_1"; "id_2"; "id_3"; "id_4"; "id_5"; "id_6"; "id_7"; "id_8";
       "id_9"]%string /\
    sent (trace w') = script.*1 /\
    List.filter is_stop (trace w') = [EStop] /\
    last (trace w') = Some EStop /\
    ordered (trace w').
Proof. split; [lia | apply (scenario_run_completes 10); lia]. Defined.

Lemma main_sends_script_in_order_witness :
  @main scenario queued_channel 4 scenario_start = Done tt scenario_end /\
  exists n m ks ext,
    length ks = 9 /\
    trace scenario_end = trace scenario_start ++ ext /\
    calls ext =
      EStart "localhost" 8000 :: poll ECurrentGame n ++ poll EActionForced m
        ++ ESleep 10 ::
           steps_calls (on_action_result scenario_start)
             (length (cells scenario_start)) script ks
        ++ [EStop] /\
    sent ext = script.*1 /\
    length (sent ext) = 9.
Proof.
  split; [vm_compute; reflexivity|].
  refine (@main_sends_script_in_order scenario queued_channel 4
            scenario_start scenario_end _).
  vm_compute. reflexivity.
Defined.

Lemma wait_for_action_result_restores_witness :
  let w := scenario_outstanding in
  let w' := final (@wait_for_action_result scenario queued_channel 2 w) in
  @wait_for_action_result scenario queued_channel 2 w = Done tt w' /\
  on_action_result w' = None /\
  exists body,
    trace w' =
      trace w ++ EGetHandler None :: ESetHandler (Some (Trigger 0)) ::
        body ++ [ESetHandler None] /\
    Forall (fun ev => is_set_handler ev = false) body.
Proof.
  split; [vm_compute; reflexivity|].
  refine (@wait_for_action_result_restores scenario queued_channel 2
            scenario_outstanding
            (final (@wait_for_action_result scenario queued_channel 2
                      scenario_outstanding)) _).
  vm_compute. reflexivity.
Defined.

Lemma trigger_counts_once_witness :
  let w := @boot unit tt None in
  (forall i, i < 0 -> @delivered_at unit burst_channel i (api w) = []) /\
  @delivered_at unit burst_channel 0 (api w) = [ok_result; ok_result] /\
  1 < 2 /\
  exists w0 w',
    @wait_for_action_result unit burst_channel 0 w = Pending w0 /\
    on_action_result w0 = Some (Trigger 0) /\
    cells w0 = [false] /\
    cells (invoke ok_result w0) = [true] /\
    (forall r2, cells (invoke r2 (invoke ok_result w0))
                = cells (invoke ok_result w0)) /\
    @wait_for_action_result unit burst_channel 2 w = Done tt w' /\
    cells w' = [true] /\
    on_action_result w' = None /\
    api w' = @ticks unit burst_channel 1 (api w) /\
    trace w' =
      [EGetHandler None; ESetHandler (Some (Trigger 0)); ESleep 1;
       EResult (Some (Trigger 0)) ok_result;
       EResult (Some (Trigger 0)) ok_result; ESetHandler None].
Proof.
  split; [intros i Hi; lia|]. split; [reflexivity|]. split; [lia|].
  refine (@trigger_counts_once unit burst_channel 2 (boot tt None) 0
            ok_result [ok_result] _ _ _);
    [intros i Hi; lia | reflexivity | lia].
Defined.

Lemma wait_for_startup_ready_witness :
  let w := scenario_start in
  let w' := final (@wait_for_startup scenario queued_channel 3 w) in
  @wait_for_startup scenario queued_channel 3 w = Done tt w' /\
  @api_current_game scenario queued_channel (api w') = true /\
  on_action_result w' = on_action_result w /\
  exists n ext,
    api w' = @ticks scenario queued_channel n (api w) /\
    trace w' = trace w ++ ext ++ [ECurrentGame true] /\
    Forall passive ext /\
    calls (ext ++ [ECurrentGame true]) = poll ECurrentGame n.
Proof.
  split; [vm_compute; reflexivity|].
  refine (@wait_for_startup_ready scenario queued_channel 3 scenario_start
            (final (@wait_for_startup scenario queued_channel 3
                      scenario_start)) _).
  vm_compute. reflexivity.
Defined.

Lemma waiters_have_no_timeout_witness :
  (forall fuel, exists w',
     @wait_for_startup unit dead_channel fuel (boot tt None) = Pending w') /\
  (forall fuel, exists w',
     @wait_for_actions_force unit dead_channel fuel (boot tt None)
     = Pending w') /\
  (exists fuel w', forall fuel', fuel <= fuel' ->
     @wait_for_startup scenario queued_channel fuel' scenario_start
     = Done tt w') /\
  (exists fuel w', forall fuel', fuel <= fuel' ->
     @wait_for_actions_force scenario queued_channel fuel' scenario_start
     = Done tt w').
Proof.
  destruct (@waiters_have_no_timeout unit dead_channel (boot tt None))
    as (Hgame & Hforced & _ & _).
  destruct (@waiters_have_no_timeout scenario queued_channel scenario_start)
    as (_ & _ & Hready & Hforce).
  split; [apply Hgame; intros n; reflexivity|].
  split; [apply Hforced; intros n; reflexivity|].
  split.
  - apply Hready. exists 2. intros m Hm.
    change (Nat.leb 2 (clock (@ticks scenario queued_channel m
                                (mkScenario 0 false))) = true).
    rewrite queued_clock. apply Nat.leb_le. cbn [clock]. lia.
  - apply Hforce. exists 5. intros m Hm.
    change (Nat.leb 5 (clock (@ticks scenario queued_channel m
                                (mkScenario 0 false))) = true).
    rewrite queued_clock. apply Nat.leb_le. cbn [clock]. lia.
Defined.

Lemma script_ids_distinct_witness :
  @main scenario queued_channel 4 scenario_start = Done tt scenario_end /\
  exists ext,
    trace scenario_end = trace scenario_start ++ ext /\
    cmd_id <$> sent ext =
      ["id_1"; "id_2"; "id_3"; "id_4"; "id_5"; "id_6"; "id_7"; "id_8";
       "id_9"]%string /\
    NoDup (cmd_id <$> sent ext).
Proof.
  split; [vm_compute; reflexivity|].
  refine (@script_ids_distinct scenario queued_channel 4
            scenario_start scenario_end _).
  vm_compute. reflexivity.
Defined.

Lemma exceptions_propagate_witness :
  let c := mkCommand "id_3" "open_file" (dumps [("filePath", "fixme.js")]) in
  @play scenario failing_channel [(c, 20)] (@stop scenario failing_channel)
    10 scenario_start =
  Raised broken_pipe (log (ERaise broken_pipe) (log (ESend c) scenario_start)).
Proof.
  destruct (@exceptions_propagate scenario failing_channel 10 scenario_start)
    as (_ & Hsend & _).
  apply Hsend. reflexivity.
Defined.

(** * Further properties of the waiters and of [main] *)

Lemma slept_total_app t1 t2 :
  slept_total (t1 ++ t2) = slept_total t1 + slept_total t2.
Proof.
  induction t1 as [|ev t1 IH]; [done|].
  destruct ev; cbn; rewrite ?IH; lia.
Qed.

Lemma slept_total_calls t : slept_total (calls t) = slept_total t.
Proof.
  unfold calls. induction t as [|ev t IH]; [done|].
  destruct ev; cbn; by rewrite ?IH.
Qed.

Lemma slept_total_sleeps n d : slept_total (replicate n (ESleep d)) = n * d.
Proof. induction n as [|n IH]; [done|]. cbn. rewrite IH. lia. Qed.

Lemma slept_total_rounds ev n :
  slept_total [ev false] = 0 ->
  slept_total (concat (replicate n [ev false; ESleep 1])) = n.
Proof.
  intros Hev. induction n as [|n IH]; [done|].
  cbn [replicate concat].
  change ([ev false; ESleep 1] ++ ?l) with ([ev false] ++ ESleep 1 :: l).
  rewrite slept_total_app, Hev. cbn. by rewrite IH.
Qed.

Section Waiters.

Context {E : Type} `{NeuroAPI E}.

Implicit Types (w : World E) (fuel : nat).

Lemma ticks_add a b (e : E) : ticks a (ticks b e) = ticks (a + b) e.
Proof. unfold ticks. by rewrite Nat.iter_add. Qed.

Lemma delivered_at_ticks i j (e : E) :
  delivered_at i (ticks j e) = delivered_at (i + j) e.
Proof. unfold delivered_at. by rewrite ticks_add. Qed.

(** A polling loop that returns did so at the first poll that read
    true. *)
Lemma poll_loop_done sig ev fuel w w' :
  is_delivery (ev false) = false ->
  passive (ev false) ->
  poll_loop sig ev fuel w = Done tt w' ->
  exists n ext,
    n < fuel /\
    (forall i, i < n -> sig (ticks i (api w)) = false) /\
    sig (ticks n (api w)) = true /\
    w' = log (ev true) (polled sig ev n w) /\
    api w' = ticks n (api w) /\
    on_action_result w' = on_action_result w /\
    trace w' = trace w ++ ext ++ [ev true] /\
    calls ext = concat (replicate n [ev false; ESleep 1]) /\
    Forall passive ext.
Proof.
  intros Hev Hpass Hrun.
  destruct (poll_loop_cases sig ev fuel w)
    as [[Hp _]|(n & Hn & Hf & Ht & Hp)]; rewrite Hp in Hrun; [done|].
  assert (w' = log (ev true) (polled sig ev n w)) as -> by congruence.
  destruct (polled_trace sig ev passive n w Hf) as (ext & Hext & Hc & HP);
    try done.
  exists n, ext. cbn. rewrite polled_api, polled_handler, Hext.
  repeat split; try done. by flatten_trace.
Qed.

(** X1: a call of [wait_for_actions_force] that returns has read
    [api.action_forced] as true, as the last thing it did, at the first
    poll at which the signal was true: it was false at each of the [n]
    polls before, the call slept [n] polling intervals, and did nothing
    else on the channel; [api.on_action_result] is what it was. *)
Theorem wait_for_actions_force_ready fuel w w' :
  wait_for_actions_force fuel w = Done tt w' ->
  api_action_forced (api w') = true /\
  on_action_result w' = on_action_result w /\
  exists n ext,
    n < fuel /\
    (forall i, i < n -> api_action_forced (ticks i (api w)) = false) /\
    api w' = ticks n (api w) /\
    trace w' = trace w ++ ext ++ [EActionForced true] /\
    Forall passive ext /\
    calls (ext ++ [EActionForced true]) = poll EActionForced n /\
    slept_total ext = n.
Proof.
  change wait_for_actions_force
    with (poll_loop api_action_forced EActionForced).
  intros Hrun.
  destruct (poll_loop_done api_action_forced EActionForced _ _ _ eq_refl I Hrun)
    as (n & ext & Hn & Hf & Ht & _ & Ha & Hh & Htr & Hc & HP).
  split; [by rewrite Ha|]. split; [done|].
  exists n, ext. repeat split; try done.
  - by rewrite calls_app, Hc.
  - by rewrite <- slept_total_calls, Hc, slept_total_rounds.
Qed.


Lemma replicate_snoc_cons {A} n (x : A) l :
  replicate n x ++ x :: l = replicate (S n) x ++ l.
Proof. rewrite replicate_S_end. by rewrite <- app_assoc. Qed.

(** X3: a call of [wait_for_action_result] that returns slept [k + 1]
    polling intervals, where [k] is the first interval, counted from the
    call, in which the channel delivered a notification: what was
    delivered before the call does not count.  All notifications of that
    interval went to [trigger], none to the handler that was saved, and
    the cell of [triggered] is the one new cell. *)
Theorem wait_for_action_result_first_delivery fuel w w' :
  wait_for_action_result fuel w = Done tt w' ->
  let prev := on_action_result w in
  let trig := Some (Trigger (length (cells w))) in
  exists k r rs,
    S k < fuel /\
    (forall i, i < k -> delivered_at i (api w) = []) /\
    delivered_at k (api w) = r :: rs /\
    api w' = ticks (S k) (api w) /\
    cells w' = cells w ++ [true] /\
    trace w' =
      trace w ++ EGetHandler prev :: ESetHandler trig ::
        replicate (S k) (ESleep 1) ++ map (EResult trig) (r :: rs)
        ++ [ESetHandler prev].
Proof.
  intros Hrun prev trig. subst prev trig.
  destruct (wait_for_action_result_cases fuel w)
    as [[Hw _]|(k & Hk & Hq & Hd & Hw)]; rewrite Hw in Hrun; [done|].
  assert (w' = restored (on_action_result w) (napped (S k) (armed w)))
    as -> by congruence.
  destruct (wait_done_world k w Hq) as (Ha & _ & Hc & _ & Ht).
  destruct (delivered_at k (api w)) as [|r rs] eqn:Hdel; [done|].
  exists k, r, rs. repeat split; try done.
  - by apply Hc.
  - etrans; [exact Ht|]. by rewrite replicate_snoc_cons.
Qed.

(** X4: [wait_for_action_result] has no timeout and no way out but a
    notification: on a channel that delivers nothing it is suspended
    however long it is observed, and as long as it is suspended the
    channel holds [trigger], not the handler that was saved.  If the
    channel delivers a notification in some polling interval after the
    call, the call returns, the same for every longer observation. *)
Theorem wait_for_action_result_no_timeout w :
  (forall fuel w', wait_for_action_result fuel w = Pending w' ->
     on_action_result w' = Some (Trigger (length (cells w)))) /\
  ((forall i, delivered_at i (api w) = []) ->
   forall fuel, exists w', wait_for_action_result fuel w = Pending w') /\
  (forall k, delivered_at k (api w) <> [] ->
   exists fuel w', forall fuel', fuel <= fuel' ->
     wait_for_action_result fuel' w = Done tt w').
Proof.
  split; [|split].
  - intros fuel w' Hrun.
    destruct (wait_for_action_result_cases fuel w)
      as [[Hw _]|(k & _ & _ & _ & Hw)]; rewrite Hw in Hrun; [|done].
    assert (w' = napped fuel (armed w)) as -> by congruence.
    by destruct (wait_pending_world fuel w) as [Hh _].
  - intros Hnone fuel.
    destruct (wait_for_action_result_cases fuel w)
      as [[Hw _]|(k & _ & _ & Hd & _)]; [by eexists|].
    by destruct (Hd (Hnone k)).
  - intros k Hk.
    destruct (wait_for_action_result_cases (S (S k)) w)
      as [[_ Hf]|(k0 & Hk0 & Hf0 & Hd0 & _)].
    { destruct Hk. apply Hf. lia. }
    exists (S (S k)).
    exists (restored (on_action_result w) (napped (S k0) (armed w))).
    intros fuel' Hfuel.
    destruct (wait_for_action_result_cases fuel' w)
      as [[_ Hf]|(k1 & Hk1 & Hf1 & Hd1 & ->)].
    { destruct Hd0. apply Hf. lia. }
    destruct (Nat.lt_trichotomy k0 k1) as [Hlt|[->|Hlt]]; [|done|].
    + by destruct (Hd0 (Hf1 k0 Hlt)).
    + by destruct (Hd1 (Hf0 k1 Hlt)).
Qed.

(** X5: two calls of [wait_for_action_result] in a row return only when
    the channel delivered notifications in two different polling
    intervals: however many notifications the first of these intervals
    carried, they end the first call only. *)
Theorem two_waits_need_two_intervals fuel w w' :
  (wait_for_action_result ;; wait_for_action_result)%co fuel w = Done tt w' ->
  exists k1 k2,
    k1 < k2 /\
    delivered_at k1 (api w) <> [] /\
    delivered_at k2 (api w) <> [] /\
    api w' = ticks (S k2) (api w) /\
    on_action_result w' = on_action_result w.
Proof.
  intros Hrun.
  destruct (wait_for_action_result_cases fuel w)
    as [[Hw _]|(k1 & _ & Hq1 & Hd1 & Hw)].
  { by rewrite (bind_pending _ _ _ _ _ Hw) in Hrun. }
  rewrite (bind_done _ _ _ _ _ _ Hw) in Hrun.
  destruct (wait_done_world k1 w Hq1) as (Ha1 & Hp1 & _ & _ & _).
  set (w1 := restored _ _) in *.
  destruct (wait_for_action_result_cases fuel w1)
    as [[Hw2 _]|(k2 & _ & Hq2 & Hd2 & Hw2)]; rewrite Hw2 in Hrun; [done|].
  assert (w' = restored (on_action_result w1) (napped (S k2) (armed w1)))
    as -> by congruence.
  destruct (wait_done_world k2 w1 Hq2) as (Ha2 & Hp2 & _ & _ & _).
  exists k1, (k2 + S k1). split; [lia|]. split; [done|].
  rewrite Ha1, delivered_at_ticks in Hd2. split; [done|].
  split; [|by rewrite Hp2, Hp1].
  rewrite Ha2, Ha1, ticks_add. f_equal.
Qed.

End Waiters.

Lemma not_stop_in (P : event -> Prop) t :
  (forall ev, P ev -> ev <> EStop) -> Forall P t -> EStop ∉ t.
Proof.
  intros HP Hall Hin. rewrite Forall_forall in Hall.
  by apply (HP EStop (Hall _ Hin)).
Qed.

Lemma opening_no_stop t : Forall opening_event t -> EStop ∉ t.
Proof. apply not_stop_in. by intros []. Qed.

Lemma opening_sent t : Forall opening_event t -> sent t = [].
Proof. induction 1 as [|ev t Hev _ IH]; [done|]. by destruct ev. Qed.

Lemma waiting_no_stop t : Forall waiting_event t -> EStop ∉ t.
Proof. apply not_stop_in. by intros []. Qed.

Lemma waiting_sent t : Forall waiting_event t -> sent t = [].
Proof. induction 1 as [|ev t Hev _ IH]; [done|]. by destruct ev. Qed.

Lemma waiting_deliveries h rs : Forall waiting_event (map (EResult h) rs).
Proof. by apply Forall_deliveries. Qed.

Lemma waiting_idle trig t :
  Forall (fun ev => ev = ESleep 1 \/ exists r, ev = EResult trig r) t ->
  Forall waiting_event t.
Proof. intros Hh. eapply Forall_impl; [done|]. by intros ev [->|[r ->]]. Qed.

Lemma send_no_stop c t : EStop ∉ t -> EStop ∉ ESend c :: t.
Proof.
  intros Ht Hin. apply elem_of_cons in Hin as [Heq|Hin]; [|done].
  by destruct c.
Qed.

Section Frame.

Context {E : Type} `{NeuroAPI E}.

Implicit Types (w : World E) (fuel : nat).

(** Every run of [main] up to the first command, with what it leaves in
    [api.on_action_result]. *)
Lemma opening_frame (rest : M E unit) fuel w :
  let o := (start "localhost" 8000 ;; wait_for_startup ;;
            wait_for_actions_force ;; sleep 10 ;; rest)%co fuel w in
  (exists e,
     o = Raised e (log (ERaise e) (log (EStart "localhost" 8000) w))) \/
  (exists w' ext, o = Pending w' /\ trace w' = trace w ++ ext /\
     Forall opening_event ext /\
     on_action_result w' = on_action_result w) \/
  (exists w' ext, o = rest fuel w' /\ trace w' = trace w ++ ext /\
     Forall opening_event ext /\
     on_action_result w' = on_action_result w /\
     length (cells w') = length (cells w)).
Proof.
  intros o. subst o.
  destruct (start_cases "localhost" 8000 fuel w)
    as [(e & He & Hst)|(e' & He & Hst)].
  { left. exists e. by rewrite (bind_raised _ _ _ _ _ _ Hst). }
  right. rewrite (bind_done _ _ _ _ _ _ Hst).
  set (w1 := with_api e' (log (EStart "localhost" 8000) w)).
  change wait_for_startup with (poll_loop api_current_game ECurrentGame).
  change wait_for_actions_force with (poll_loop api_action_forced EActionForced).
  destruct (poll_loop_cases api_current_game ECurrentGame fuel w1)
    as [[Hp Hf]|(n & Hn & Hf & _ & Hp)].
  { left. rewrite (bind_pending _ _ _ _ _ Hp).
    destruct (polled_trace api_current_game ECurrentGame opening_event
                fuel w1 Hf) as (ext & Ht & _ & Hh); try done.
    eexists _, (EStart "localhost" 8000 :: ext). split; [done|].
    rewrite Ht, polled_handler. cbn. flatten_trace.
    split; [done|]. split; [by constructor|done]. }
  rewrite (bind_done _ _ _ _ _ _ Hp).
  destruct (polled_trace api_current_game ECurrentGame opening_event n w1 Hf)
    as (ext1 & Ht1 & _ & Hh1); try done.
  set (w2 := log (ECurrentGame true) (polled _ _ n w1)).
  assert (Hw2 : on_action_result w2 = on_action_result w)
    by (subst w2; cbn; by rewrite polled_handler).
  assert (Hl2 : length (cells w2) = length (cells w))
    by (subst w2; cbn; by rewrite polled_cells_length).
  assert (Ht2 : trace w2 =
            trace w ++ EStart "localhost" 8000 :: ext1 ++ [ECurrentGame true]).
  { subst w2. cbn. rewrite Ht1. cbn. by flatten_trace. }
  destruct (poll_loop_cases api_action_forced EActionForced fuel w2)
    as [[Hp2 Hf2]|(m & Hm & Hf2 & _ & Hp2)].
  { left. rewrite (bind_pending _ _ _ _ _ Hp2).
    destruct (polled_trace api_action_forced EActionForced opening_event
                fuel w2 Hf2) as (ext & Ht & _ & Hh); try done.
    eexists _, (EStart "localhost" 8000 :: ext1 ++ ECurrentGame true :: ext).
    split; [done|]. rewrite Ht, Ht2, polled_handler, Hw2. flatten_trace.
    split; [done|]. split; [|done].
    constructor; [done|]. apply Forall_app. split; [done|]. by constructor. }
  right. rewrite (bind_done _ _ _ _ _ _ Hp2).
  rewrite (bind_done _ _ _ _ _ _ (sleep_eq _ _ _)).
  destruct (polled_trace api_action_forced EActionForced opening_event
              m w2 Hf2) as (ext2 & Ht3 & _ & Hh2); try done.
  set (w3 := log (EActionForced true) (polled _ _ m w2)).
  exists (slept 10 w3).
  eexists (EStart "localhost" 8000 :: ext1 ++ ECurrentGame true :: ext2
             ++ EActionForced true :: ESleep 10 :: map (EResult _) _).
  split; [done|]. split; [|split; [|split]].
  - rewrite slept_trace. cbn. rewrite Ht3, Ht2. by flatten_trace.
  - constructor; [done|]. apply Forall_app. split; [done|].
    constructor; [done|]. apply Forall_app. split; [done|].
    constructor; [done|]. constructor; [done|]. by apply Forall_deliveries.
  - rewrite slept_handler. cbn. by rewrite polled_handler.
  - rewrite slept_cells_length. cbn. by rewrite polled_cells_length.
Qed.

(** Every run of the steps [l] and [stop]: when [stop] is reached every
    command of [l] was sent, and the handler is back when the run is
    over. *)
Lemma play_frame l : forall fuel w,
  exists ext,
    trace (final (play l stop fuel w)) = trace w ++ ext /\
    (EStop ∈ ext -> sent ext = l.*1 /\ stop_is_last ext) /\
    match play l stop fuel w with
    | Pending w' =>
        exists c, length (cells w) <= c /\
          on_action_result w' = Some (Trigger c)
    | Done _ w' | Raised _ w' => on_action_result w' = on_action_result w
    end.
Proof.
  induction l as [|[c d] r IH]; intros fuel w.
  - cbn [play].
    destruct (stop_cases fuel w) as [(e & He & ->)|(e' & He & ->)].
    + exists [EStop; ERaise e]. cbn. flatten_trace. split; [done|].
      split; [|done]. intros _. split; [done|].
      exists []. split; [by apply not_elem_of_nil|]. right. by exists e.
    + exists [EStop]. cbn. split; [done|]. split; [|done].
      intros _. split; [done|].
      exists []. split; [by apply not_elem_of_nil|]. by left.
  - cbn [play].
    destruct (send_action_cases (cmd_id c) (cmd_name c) (cmd_payload c) fuel w)
      as [(e & He & Hsend)|(e' & rs & He & Hsend)].
    + rewrite (bind_raised _ _ _ _ _ _ Hsend).
      exists [ESend c; ERaise e]. cbn. flatten_trace. split; [done|].
      split; [|done]. intros Hin.
      apply send_no_stop in Hin; [done|].
      apply (not_stop_in (fun ev => ev <> EStop)); [done|].
      by repeat constructor.
    + rewrite (bind_done _ _ _ _ _ _ Hsend).
      set (prev := on_action_result w).
      set (w1 := deliver rs (with_api e' (log (ESendAction _ _ _) w))).
      assert (Hp1 : on_action_result w1 = prev)
        by (subst w1; by rewrite deliver_handler).
      assert (Hl1 : length (cells w1) = length (cells w))
        by (subst w1; by rewrite deliver_cells_length).
      assert (Ht1 : trace w1 = trace w ++ ESend c :: map (EResult prev) rs).
      { subst w1. rewrite deliver_trace. cbn. by flatten_trace. }
      destruct (wait_for_action_result_cases fuel w1)
        as [[Hw Hq]|(k & Hk & Hq & Hd & Hw)].
      * rewrite (bind_pending _ _ _ _ _ Hw). cbn [final].
        destruct (wait_pending_world fuel w1) as (Hh & extn & Htn & _ & HPn).
        apply waiting_idle in HPn.
        exists (ESend c :: map (EResult prev) rs ++ EGetHandler prev ::
                ESetHandler (Some (Trigger (length (cells w1)))) :: extn).
        rewrite Htn, Ht1, Hp1. flatten_trace. split; [done|]. split.
        -- intros Hin. apply send_no_stop in Hin; [done|].
           apply waiting_no_stop, Forall_app.
           split; [apply waiting_deliveries|]. by repeat constructor.
        -- exists (length (cells w1)). split; [lia|done].
      * rewrite (bind_done _ _ _ _ _ _ Hw), (bind_done _ _ _ _ _ _ (sleep_eq _ _ _)).
        destruct (wait_done_world k w1 Hq) as (_ & Hp2 & _ & Hl2 & Ht2).
        set (w2 := restored _ _) in *.
        destruct (IH fuel (slept d w2)) as (ext & Hext & Hstop & Hout).
        rewrite slept_trace, Ht2, Ht1, Hp2, Hp1 in Hext.
        rewrite slept_handler, Hp2, Hp1 in Hout.
        rewrite slept_cells_length, Hl2, Hl1 in Hout.
        set (t2 := map (EResult prev) rs ++ EGetHandler prev ::
               ESetHandler (Some (Trigger (length (cells w1)))) ::
               replicate k (ESleep 1) ++ ESleep 1 ::
               map (EResult (Some (Trigger (length (cells w1)))))
                 (delivered_at k (api w1)) ++ ESetHandler prev ::
               ESleep d :: map (EResult prev) (api_elapse d (api w2)).2).
        assert (H2 : Forall waiting_event t2).
        { subst t2.
          repeat first
            [ apply Forall_app; split
            | apply Forall_cons; split; [done|]
            | apply waiting_deliveries
            | by apply Forall_replicate
            | apply Forall_nil_2 ]. }
        exists (ESend c :: t2 ++ ext). split; [|split].
        -- rewrite Hext. subst t2. by flatten_trace.
        -- intros Hin. apply elem_of_cons in Hin as [Heq|Hin];
             [by destruct c|].
           apply elem_of_app in Hin as [Hin|Hin];
             [by apply waiting_no_stop in H2|].
           destruct (Hstop Hin) as (Hs & pre & Hpre & Hlast).
           split.
           ++ rewrite sent_ESend, sent_app, (waiting_sent t2 H2), Hs. done.
           ++ exists (ESend c :: t2 ++ pre). split.
              ** apply send_no_stop. intros Hin2.
                 apply elem_of_app in Hin2 as [Hin2|Hin2]; [|done].
                 by apply waiting_no_stop in H2.
              ** destruct Hlast as [->|[e ->]]; [left|right; exists e];
                   by flatten_trace.
        -- destruct (play r stop fuel (slept d w2)); try done.
           destruct Hout as (c0 & Hc0 & Hh0). exists c0. split; [lia|done].
Qed.

End Frame.

Lemma slept_total_poll ev n :
  (forall b, slept_total [ev b] = 0) -> slept_total (poll ev n) = n.
Proof.
  intros Hev. unfold poll.
  rewrite slept_total_app, slept_total_rounds, (Hev true) by done. lia.
Qed.

Lemma slept_total_steps prev c l ks :
  length ks = length l ->
  slept_total (steps_calls prev c l ks)
  = sum_list l.*2 + sum_list ks + length l.
Proof.
  revert c ks. induction l as [|[cmd d] r IH]; intros c [|k ks] Hlen; try done.
  cbn [steps_calls]. unfold result_wait, ESend. cbn [slept_total app].
  rewrite !slept_total_app, slept_total_sleeps. cbn [slept_total].
  rewrite IH by (cbn in Hlen; lia). cbn. lia.
Qed.

Lemma printable_app a b :
  printable (a ++ b)%string = (printable a && printable b)%bool.
Proof.
  induction a as [|c a IH]; [done|].
  change (String c a ++ b)%string with (String c (a ++ b)%string).
  cbn [printable]. rewrite IH. by rewrite !andb_assoc.
Qed.

Lemma printable_escape_char c : printable (escape_char c) = true.
Proof. destruct c as [[] [] [] [] [] [] [] []]; reflexivity. Qed.

Lemma printable_escape_chars s : printable (escape_chars s) = true.
Proof.
  induction s as [|c s IH]; [done|].
  cbn [escape_chars]. by rewrite printable_app, printable_escape_char, IH.
Qed.

Lemma printable_encode s : printable (py_encode_basestring_ascii s) = true.
Proof.
  unfold py_encode_basestring_ascii.
  change (String dquote ?x) with (String dquote "" ++ x)%string.
  by rewrite !printable_app, printable_escape_chars.
Qed.

Lemma printable_items items first :
  printable (dump_items json_dumps (str_items items) first) = true.
Proof.
  revert first. induction items as [|[k v] items IH]; intros first; [done|].
  cbn [str_items map dump_items fst snd json_dumps].
  rewrite !printable_app, !printable_encode.
  pose proof (IH false) as Hrest. unfold str_items in Hrest. rewrite Hrest.
  by destruct first.
Qed.

(** [json.dumps] of a dictionary of strings writes printable ASCII only,
    whatever characters the strings hold. *)
Lemma printable_json_dumps items :
  printable (json_dumps (PyDict (str_items items))) = true.
Proof.
  cbn [json_dumps]. by rewrite !printable_app, printable_items.
Qed.

Section Runs.

Context {E : Type} `{NeuroAPI E}.

Implicit Types (w : World E) (fuel : nat).

(** Every run of [main], with what it leaves in the handler slot and
    where [stop] stands in it. *)
Lemma main_frame fuel w :
  exists ext,
    trace (final (main fuel w)) = trace w ++ ext /\
    (EStop ∈ ext -> sent ext = script.*1 /\ stop_is_last ext) /\
    match main fuel w with
    | Pending w' =>
        on_action_result w' = on_action_result w \/
        exists c, length (cells w) <= c /\
          on_action_result w' = Some (Trigger c)
    | Done _ w' | Raised _ w' => on_action_result w' = on_action_result w
    end.
Proof.
  rewrite main_sequencer. unfold sequencer.
  destruct (opening_frame (play script stop) fuel w)
    as [(e & ->)|[(w' & ext & -> & Ht & Hop & Hh)|
        (w' & ext & -> & Ht & Hop & Hh & Hl)]].
  - exists [EStart "localhost" 8000; ERaise e]. cbn. flatten_trace.
    split; [done|]. split; [|done]. intros Hin.
    apply (not_stop_in (fun ev => ev <> EStop)) in Hin; [done|done|].
    by repeat constructor.
  - exists ext. cbn. split; [done|]. split; [|by left].
    intros Hin. by apply opening_no_stop in Hin.
  - destruct (play_frame script fuel w') as (ext2 & Ht2 & Hstop & Hout).
    exists (ext ++ ext2). split; [rewrite Ht2, Ht; by flatten_trace|]. split.
    + intros Hin. apply elem_of_app in Hin as [Hin|Hin];
        [by apply opening_no_stop in Hin|].
      destruct (Hstop Hin) as (Hs & pre & Hpre & Hlast). split.
      * by rewrite sent_app, opening_sent, Hs.
      * exists (ext ++ pre). split.
        -- intros Hin2. apply elem_of_app in Hin2 as [Hin2|Hin2]; [|done].
           by apply opening_no_stop in Hin2.
        -- destruct Hlast as [->|[e ->]]; [left|right; exists e];
             by flatten_trace.
    + destruct (play script stop fuel w'); rewrite ?Hh, ?Hl in Hout;
        try done. by right.
Qed.

(** X6: on a channel that delivers no result notification while the
    script is asleep, [main] never finishes, whatever the channel
    delivered inside its [send_action] calls: the first command is sent
    before [trigger] is installed, so the wait that follows it never
    ends.  Such a run sends at most one command and never calls
    [stop]. *)
Theorem main_needs_results_while_asleep fuel w :
  (forall d e, (api_elapse d e).2 = []) ->
  (forall w', main fuel w <> Done tt w') /\
  exists ext,
    trace (final (main fuel w)) = trace w ++ ext /\
    length (sent ext) <= 1 /\
    EStop ∉ ext.
Proof.
  intros Hquiet.
  assert (Hmain : exists ext,
            trace (final (main fuel w)) = trace w ++ ext /\
            length (sent ext) <= 1 /\
            forall w', main fuel w <> Done tt w').
  { rewrite main_sequencer. unfold sequencer.
    destruct (opening_frame (play script stop) fuel w)
      as [(e & ->)|[(w' & ext & -> & Ht & Hop & _)|
          (w' & ext & -> & Ht & Hop & _)]].
    - exists [EStart "localhost" 8000; ERaise e]. cbn. flatten_trace.
      repeat split; [lia|done].
    - exists ext. cbn. rewrite opening_sent by done.
      repeat split; [done|cbn; lia|done].
    - unfold script. cbn [play].
      set (c := mkCommand "id_1" _ _).
      destruct (send_action_cases (cmd_id c) (cmd_name c) (cmd_payload c)
                  fuel w') as [(e & _ & Hsend)|(e' & rs & _ & Hsend)].
      + rewrite (bind_raised _ _ _ _ _ _ Hsend).
        exists (ext ++ [ESend c; ERaise e]). cbn. rewrite Ht. flatten_trace.
        rewrite sent_app, opening_sent by done.
        repeat split; [cbn; lia|done].
      + rewrite (bind_done _ _ _ _ _ _ Hsend).
        set (w1 := deliver rs _).
        destruct (wait_for_action_result_cases fuel w1)
          as [[Hw _]|(k & _ & _ & Hd & _)];
          [|by destruct (Hd (Hquiet 1 _))].
        rewrite (bind_pending _ _ _ _ _ Hw). cbn [final].
        destruct (wait_pending_world fuel w1) as (_ & extn & Htn & _ & HPn).
        apply waiting_idle in HPn.
        eexists (ext ++ ESend c :: map (EResult _) rs ++ _ :: _ :: extn).
        split.
        * rewrite Htn. subst w1. rewrite deliver_trace. cbn. rewrite Ht.
          by flatten_trace.
        * rewrite sent_app, opening_sent, sent_ESend by done.
          rewrite sent_app, sent_deliveries. cbn [sent app].
          rewrite (waiting_sent extn) by done. repeat split; [cbn; lia|done]. }
  destruct Hmain as (ext & Ht & Hlen & Hnot). split; [done|].
  exists ext. repeat split; try done.
  destruct (main_frame fuel w) as (ext' & Ht' & Hstop & _).
  rewrite Ht in Ht'. apply app_inv_head in Ht' as <-.
  intros Hin. destruct (Hstop Hin) as [Hs _].
  rewrite Hs in Hlen. cbn in Hlen. lia.
Qed.

(** X7: when [main] returns, and when it ends with an exception, the
    handler in [api.on_action_result] is the one that was there when it
    started.  While [main] is suspended the slot holds that handler or
    a [trigger] the run made itself. *)
Theorem main_restores_handler fuel w :
  match main fuel w with
  | Pending w' =>
      on_action_result w' = on_action_result w \/
      exists c, length (cells w) <= c /\
        on_action_result w' = Some (Trigger c)
  | Done _ w' | Raised _ w' => on_action_result w' = on_action_result w
  end.
Proof. by destruct (main_frame fuel w) as (ext & _ & _ & Hout). Qed.

(** X8: in every run of [main], finished or not, [stop] is called only
    when all nine commands of the script have been sent; it is called at
    most once, and nothing is called after it. *)
Theorem stop_only_after_all_commands fuel w :
  exists ext,
    trace (final (main fuel w)) = trace w ++ ext /\
    (EStop ∈ ext ->
     sent ext = script.*1 /\
     exists pre,
       (EStop ∉ pre) /\
       (ext = pre ++ [EStop] \/ exists e, ext = pre ++ [EStop; ERaise e])).
Proof.
  destruct (main_frame fuel w) as (ext & Ht & Hstop & _).
  exists ext. split; [done|]. exact Hstop.
Qed.

(** X9: a run of [main] that finishes was asleep for at least 29.9 s:
    the settle second, the 28 s of pauses after the nine results, and at
    least one polling interval of 0.1 s in each of the nine waits. *)
Theorem complete_run_sleeps fuel w w' :
  main fuel w = Done tt w' ->
  exists ext,
    trace w' = trace w ++ ext /\
    299 <= slept_total ext.
Proof.
  intros Hrun.
  destruct (main_done fuel w w' Hrun) as (n & m & ks & ext & Hlen & Ht & Hc & _).
  exists ext. split; [done|].
  rewrite <- slept_total_calls, Hc. cbn [slept_total].
  rewrite !slept_total_app, !slept_total_poll by done. cbn [slept_total].
  rewrite slept_total_app, slept_total_steps by done.
  change (sum_list script.*2) with 280. change (length script) with 9.
  cbn [slept_total]. lia.
Qed.

(** X10: in every run of [main] every payload handed to [send_action]
    that is not [None] consists of printable ASCII characters only. *)
Theorem payloads_are_ascii fuel w :
  exists ext,
    trace (final (main fuel w)) = trace w ++ ext /\
    forall i n p, ESendAction i n (Some p) ∈ ext -> printable p = true.
Proof.
  destruct (main_safe fuel w) as (ext & Ht & _ & [j Hj] & _).
  exists ext. split; [done|]. intros i n p Hin.
  apply elem_of_sent in Hin. rewrite Hj in Hin.
  assert (Hscript : mkCommand i n (Some p) ∈ script.*1).
  { rewrite <- (take_drop j script), fmap_app. apply elem_of_app. by left. }
  pose proof script_payloads as Hall. rewrite Forall_forall in Hall.
  destruct (Hall _ Hscript) as [Hnone|(items & Hp & _)]; [done|].
  cbn in Hp. injection Hp as ->. apply printable_json_dumps.
Qed.

End Runs.

(** ** Witnesses of the further properties *)

Lemma wait_for_actions_force_ready_witness :
  let w := scenario_start in
  let w' := final (@wait_for_actions_force scenario queued_channel 6 w) in
  @wait_for_actions_force scenario queued_channel 6 w = Done tt w' /\
  @api_action_forced scenario queued_channel (api w') = true /\
  on_action_result w' = on_action_result w /\
  exists n ext,
    n < 6 /\
    (forall i, i < n ->
       @api_action_forced scenario queued_channel
         (@ticks scenario queued_channel i (api w)) = false) /\
    api w' = @ticks scenario queued_channel n (api w) /\
    trace w' = trace w ++ ext ++ [EActionForced true] /\
    Forall passive ext /\
    calls (ext ++ [EActionForced true]) = poll EActionForced n /\
    slept_total ext = n.
Proof.
  split; [vm_compute; reflexivity|].
  refine (@wait_for_actions_force_ready scenario queued_channel 6
            scenario_start
            (final (@wait_for_actions_force scenario queued_channel 6
                      scenario_start)) _).
  vm_compute. reflexivity.
Defined.


Lemma wait_for_action_result_first_delivery_witness :
  let w := scenario_outstanding in
  let w' := final (@wait_for_action_result scenario queued_channel 2 w) in
  @wait_for_action_result scenario queued_channel 2 w = Done tt w' /\
  exists k r rs,
    S k < 2 /\
    (forall i, i < k ->
       @delivered_at scenario queued_channel i (api w) = []) /\
    @delivered_at scenario queued_channel k (api w) = r :: rs /\
    api w' = @ticks scenario queued_channel (S k) (api w) /\
    cells w' = cells w ++ [true] /\
    trace w' =
      trace w ++ EGetHandler None :: ESetHandler (Some (Trigger 0)) ::
        replicate (S k) (ESleep 1) ++ map (EResult (Some (Trigger 0))) (r :: rs)
        ++ [ESetHandler None].
Proof.
  split; [vm_compute; reflexivity|].
  refine (@wait_for_action_result_first_delivery scenario queued_channel 2
            scenario_outstanding
            (final (@wait_for_action_result scenario queued_channel 2
                      scenario_outstanding)) _).
  vm_compute. reflexivity.
Defined.

Lemma wait_for_action_result_no_timeout_witness :
  (forall fuel, exists w',
     @wait_for_action_result unit dead_channel fuel (boot tt None)
     = Pending w') /\
  (exists fuel w', forall fuel', fuel <= fuel' ->
     @wait_for_action_result scenario queued_channel fuel' scenario_outstanding
     = Done tt w').
Proof.
  destruct (@wait_for_action_result_no_timeout unit dead_channel
              (boot tt None)) as (_ & Hnever & _).
  destruct (@wait_for_action_result_no_timeout scenario queued_channel
              scenario_outstanding) as (_ & _ & Hsome).
  split; [apply Hnever; intros i; reflexivity|].
  apply (Hsome 0). discriminate.
Defined.

Lemma two_waits_need_two_intervals_witness :
  let w := @boot unit tt None in
  let two := (@wait_for_action_result unit chatty_channel ;;
              @wait_for_action_result unit chatty_channel)%co in
  let w' := final (two 2 w) in
  two 2 w = Done tt w' /\
  exists k1 k2,
    k1 < k2 /\
    @delivered_at unit chatty_channel k1 (api w) <> [] /\
    @delivered_at unit chatty_channel k2 (api w) <> [] /\
    api w' = @ticks unit chatty_channel (S k2) (api w) /\
    on_action_result w' = on_action_result w.
Proof.
  split; [vm_compute; reflexivity|].
  refine (@two_waits_need_two_intervals unit chatty_channel 2
            (boot tt None) _ _).
  vm_compute. reflexivity.
Defined.

Lemma main_needs_results_while_asleep_witness :
  (forall d e, (@api_elapse scenario sync_channel d e).2 = []) /\
  (forall w', @main scenario sync_channel 10 scenario_start <> Done tt w') /\
  exists ext,
    trace (final (@main scenario sync_channel 10 scenario_start))
    = trace scenario_start ++ ext /\
    length (sent ext) <= 1 /\
    EStop ∉ ext.
Proof.
  split; [intros d e; reflexivity|].
  apply (@main_needs_results_while_asleep scenario sync_channel 10
           scenario_start).
  intros d e. reflexivity.
Defined.

Lemma complete_run_sleeps_witness :
  @main scenario queued_channel 4 scenario_start = Done tt scenario_end /\
  exists ext,
    trace scenario_end = trace scenario_start ++ ext /\
    299 <= slept_total ext.
Proof.
  split; [vm_compute; reflexivity|].
  refine (@complete_run_sleeps scenario queued_channel 4
            scenario_start scenario_end _).
  vm_compute. reflexivity.
Defined.
